(** * Smart-grid decision engine: a shallow embedding and its properties

    The development follows [src/decision_engine.py] and [src/model.py],
    then [src/auth.py] and the configuration and badge functions of
    [src/email_service.py].

    Modelling choices, fixed once for the whole file:
    - a Python/NumPy [float] is an exact rational or [NaN]; binary64
      rounding, overflow and the infinities are outside the model;
    - a [pd.Series] (one row of a frame, or one row of the baseline
      table) is a finite map from labels to cells;
    - a [pd.DataFrame] is its column list together with its rows in
      positional order; index labels are taken to be unique, so that
      label-based and positional selection coincide;
    - an exception raised by the Python code is the result [None]. *)

From Stdlib Require Import QArith Qround Qabs.
From stdpp Require Import gmap strings list pretty sorting.

Open Scope Z_scope.

(** ** Numbers *)

Module Float.

Inductive float : Type :=
| NaN
| Fin (q : Q).

Definition Qlt_bool (x y : Q) : bool := negb (Qle_bool y x).

(** [a < b]; every comparison with [NaN] is false. *)
Definition lt (a b : float) : bool :=
  match a, b with
  | Fin x, Fin y => Qlt_bool x y
  | _, _ => false
  end.

(** [a > b]. *)
Definition gt (a b : float) : bool := lt b a.

Definition mul (a b : float) : float :=
  match a, b with
  | Fin x, Fin y => Fin (x * y)
  | _, _ => NaN
  end.

Definition sub (a b : float) : float :=
  match a, b with
  | Fin x, Fin y => Fin (x - y)
  | _, _ => NaN
  end.

(** [a / b]. A zero divisor never reaches a division of the program
    (every divisor is floored by [max(_, 0.001)] or is a positive
    count); the quotient is [NaN] there. *)
Definition div (a b : float) : float :=
  match a, b with
  | Fin x, Fin y => if Qeq_bool y 0 then NaN else Fin (x / y)
  | _, _ => NaN
  end.

(** Python's [abs]. *)
Definition abs (a : float) : float :=
  match a with
  | Fin x => Fin (Qabs x)
  | NaN => NaN
  end.

(** Python's builtin [max(a, b)]: [b] replaces [a] only when [b > a],
    so a [NaN] first argument is returned as it is. *)
Definition max (a b : float) : float := if gt b a then b else a.

(** Rounding to the nearest integer, ties to the even one. *)
Definition round_half_even (q : Q) : Z :=
  let f := Qfloor q in
  match Qcompare (q - inject_Z f) (1 # 2) with
  | Lt => f
  | Gt => f + 1
  | Eq => if Z.even f then f else f + 1
  end.

Fixpoint zero_pad (width : nat) (s : string) : string :=
  match width with
  | O => s
  | S w => if (String.length s <? width)%nat then zero_pad w ("0" +:+ s) else s
  end.

(** The format specification [:.<d>f]. *)
Definition format_fixed (d : nat) (a : float) : string :=
  match a with
  | NaN => "nan"
  | Fin q =>
      let scale := 10 ^ Z.of_nat d in
      let n := round_half_even (Qabs q * inject_Z scale) in
      let sign := if Qlt_bool q 0 then "-" else "" in
      let whole := pretty (n / scale) in
      let frac := zero_pad d (pretty (n mod scale)) in
      match d with
      | O => sign +:+ whole
      | S _ => sign +:+ whole +:+ "." +:+ frac
      end
  end.

(** [round(0)] followed by [astype(str)] on a float column. *)
Definition round_str (a : float) : string :=
  match a with
  | NaN => "nan"
  | Fin q =>
      let n := round_half_even q in
      pretty n +:+ ".0"
  end.

(** [mean] of a column, [NaN] cells skipped; [NaN] when nothing is left. *)
Definition finite (l : list float) : list Q :=
  omap (λ a, match a with Fin q => Some q | NaN => None end) l.

Definition Qsum (l : list Q) : Q := foldr Qplus 0%Q l.

Definition mean (l : list float) : float :=
  match finite l with
  | [] => NaN
  | qs => Fin (Qsum qs / inject_Z (Z.of_nat (length qs)))
  end.

End Float.

Import Float.

Arguments lt : simpl never.
Arguments gt : simpl never.
Arguments mul : simpl never.
Arguments sub : simpl never.
Arguments div : simpl never.
Arguments abs : simpl never.
Arguments max : simpl never.
Arguments mean : simpl never.
Arguments format_fixed : simpl never.
Arguments round_str : simpl never.

(** ** Cells, rows and frames *)

Inductive value : Type :=
| VFloat (x : float)
| VInt (n : Z)
| VBool (b : bool)
| VStr (s : string).

(** A missing cell is the float [NaN], as pandas stores it. *)
Definition NA : value := VFloat NaN.

(** A cell used as a number; a string there is a [TypeError]. *)
Definition to_float (v : value) : option float :=
  match v with
  | VFloat x => Some x
  | VInt n => Some (Fin (inject_Z n))
  | VBool b => Some (Fin (if b then 1 else 0)%Q)
  | VStr _ => None
  end.

Definition isna (v : value) : bool :=
  match v with
  | VFloat NaN => true
  | _ => false
  end.

(** Python's [==] on cells. *)
Definition py_eq (v w : value) : bool :=
  match v, w with
  | VStr s, VStr t => bool_decide (s = t)
  | VStr _, _ | _, VStr _ => false
  | _, _ =>
      match to_float v, to_float w with
      | Some (Fin x), Some (Fin y) => Qeq_bool x y
      | _, _ => false
      end
  end.

Abbreviation Series := (gmap string value).

(** [label in row] *)
Definition contains (row : Series) (label : string) : bool :=
  if row !! label is Some _ then true else false.

(** [row[label]] read as a number. *)
Definition num (row : Series) (label : string) : option float :=
  row !! label ≫= to_float.

Record DataFrame : Type := mkDataFrame {
  columns : list string;
  rows : list Series;
}.

(** The cell of [row] under a column of its frame. *)
Definition cell (row : Series) (label : string) : value :=
  default NA (row !! label).

(** [table.loc[key]] on a table indexed by group key. *)
Fixpoint loc (table : list (value * Series)) (key : value) : option Series :=
  match table with
  | [] => None
  | (k, s) :: rest => if py_eq k key then Some s else loc rest key
  end.

(** ** [decision_engine.detect_pattern] *)

Definition Verdict : Type := string * float * string.

(** The four f-strings of the function. *)
Definition signature_explanation (voltage voltage_mean current current_mean : float)
  : string :=
  "Voltage drop (" +:+ format_fixed 1 voltage +:+ "V < "
    +:+ format_fixed 1 voltage_mean +:+ "V) with high current ("
    +:+ format_fixed 1 current +:+ "A > "
    +:+ format_fixed 1 current_mean +:+ "A)".

Definition spike_explanation (power z_score : float) : string :=
  "Power spike detected: " +:+ format_fixed 1 power
    +:+ "kW (z-score: " +:+ format_fixed 2 z_score +:+ ")".

Definition suppression_explanation (power_ratio power rolling_avg_power : float)
  : string :=
  "Consumption " +:+ format_fixed 0 (mul power_ratio (Fin 100))
    +:+ "% of rolling average (" +:+ format_fixed 1 power
    +:+ "kW < " +:+ format_fixed 1 rolling_avg_power +:+ "kW)".

Definition anomaly_explanation (score : float) : string :=
  "AI detected anomaly (score: " +:+ format_fixed 3 score +:+ ")".

(** Rule 1, lines 26-32. The outer [option] is the exception, the inner
    one tells whether the rule returned. *)
Definition theft_signature (row stats : Series) (is_anomaly : bool)
  : option (option Verdict) :=
  if contains row "voltage" && contains row "current" then
    voltage ← num row "voltage";
    voltage_mean ← num stats "voltage_mean";
    current ← num row "current";
    current_mean ← num stats "current_mean";
    let voltage_drop := lt voltage (mul (Fin 0.85) voltage_mean) in
    let high_current := gt current (mul (Fin 1.3) current_mean) in
    if voltage_drop && high_current then
      let risk := if is_anomaly then Fin 0.9 else Fin 0.6 in
      let explanation :=
        signature_explanation voltage voltage_mean current current_mean in
      Some (Some ("theft", risk, explanation))
    else Some None
  else Some None.

(** Rule 2, lines 34-39. *)
Definition power_spike (row stats : Series) (is_anomaly : bool)
  : option (option Verdict) :=
  if contains row "power" then
    power ← num row "power";
    power_mean ← num stats "power_mean";
    power_std ← num stats "power_std";
    let z_score := div (sub power power_mean) (max power_std (Fin 0.001)) in
    if gt (abs z_score) (Fin 3.0) then
      let risk := if is_anomaly then Fin 0.7 else Fin 0.4 in
      let explanation := spike_explanation power z_score in
      Some (Some ("fault", risk, explanation))
    else Some None
  else Some None.

(** Rule 3, lines 41-46. *)
Definition consumption_suppression (row : Series) (is_anomaly : bool)
  : option (option Verdict) :=
  if contains row "power" && contains row "rolling_avg_power" then
    power ← num row "power";
    rolling_avg_power ← num row "rolling_avg_power";
    let power_ratio := div power (max rolling_avg_power (Fin 0.001)) in
    if lt power_ratio (Fin 0.5) then
      let risk := if is_anomaly then Fin 0.8 else Fin 0.5 in
      let explanation :=
        suppression_explanation power_ratio power rolling_avg_power in
      Some (Some ("theft", risk, explanation))
    else Some None
  else Some None.

(** Rules 4 and 5, lines 48-53. *)
Definition anomaly_or_normal (anomaly_score : value) (is_anomaly : bool)
  : option Verdict :=
  if is_anomaly then
    score ← to_float anomaly_score;
    Some ("anomaly", Fin 0.5, anomaly_explanation score)
  else Some ("normal", Fin 0.0, "Normal operation").

Definition detect_pattern (row : Series) (grouped_stats : list (value * Series))
  : option Verdict :=
  meter_id ← row !! "meter_id";
  stats ← loc grouped_stats meter_id;
  let is_anomaly := py_eq (default (VInt 1) (row !! "prediction")) (VInt (-1)) in
  let anomaly_score := default (VInt 0) (row !! "anomaly_score") in
  r1 ← theft_signature row stats is_anomaly;
  if r1 is Some verdict then Some verdict else
  r2 ← power_spike row stats is_anomaly;
  if r2 is Some verdict then Some verdict else
  r3 ← consumption_suppression row is_anomaly;
  if r3 is Some verdict then Some verdict else
  anomaly_or_normal anomaly_score is_anomaly.

(** ** Frame operations used by the engine *)

Definition in_columns (df : DataFrame) (label : string) : bool :=
  bool_decide (label ∈ columns df).

(** [df[label]]; a [KeyError] when the frame has no such column. *)
Definition column (df : DataFrame) (label : string) : option (list value) :=
  if in_columns df label then Some ((λ row, cell row label) <$> rows df)
  else None.

(** A column consumed by arithmetic. *)
Definition float_column (df : DataFrame) (label : string)
  : option (list float) :=
  column df label ≫= mapM to_float.

Definition add_column (label : string) (cols : list string) : list string :=
  if bool_decide (label ∈ cols) then cols else cols ++ [label].

(** [df[label] = v] for a scalar [v]. *)
Definition set_scalar (label : string) (v : value) (df : DataFrame)
  : DataFrame :=
  {| columns := add_column label (columns df);
     rows := (λ row, <[label := v]> row) <$> rows df |}.

(** [df[label] = vals]; a [ValueError] on a length mismatch. *)
Definition set_column (label : string) (vals : list value) (df : DataFrame)
  : option DataFrame :=
  if bool_decide (length vals = length (rows df)) then
    Some {| columns := add_column label (columns df);
            rows := zip_with (λ v row, <[label := v]> row) vals (rows df) |}
  else None.

(** [df.loc[mask, label] = vals], [vals] aligned with the frame. *)
Definition loc_set (mask : list bool) (label : string) (vals : list value)
    (df : DataFrame) : DataFrame :=
  {| columns := add_column label (columns df);
     rows := zip_with (λ (mv : bool * value) row,
                         if mv.1 then <[label := mv.2]> row else row)
               (zip mask vals) (rows df) |}.

(** [groupby(key)[val].transform("mean")]: each row receives the mean of
    its group; rows whose key is missing belong to no group. *)
Definition transform_mean (keys : list value) (vals : list float)
  : list float :=
  (λ k, if isna k then NaN
        else mean (snd <$> filter (λ kv : value * float, py_eq kv.1 k)
                             (zip keys vals)))
  <$> keys.

Definition same_group (k1 k2 : value * value) : bool :=
  py_eq k1.1 k2.1 && py_eq k1.2 k2.2.

(** A boolean column averaged: [True] counts 1, [False] counts 0. *)
Definition bool_float (b : bool) : float := Fin (if b then 1 else 0)%Q.

(** [grouped["meter_id"].transform(lambda x: high_load[x.index].mean())]
    with [grouped] keyed by the pair (transformer_id, timestamp). *)
Definition transform_high_load_mean (keys : list (value * value))
    (high_load : list bool) : list float :=
  (λ k, if isna k.1 || isna k.2 then NaN
        else mean (bool_float <$>
               (snd <$> filter (λ kh : value * value * bool, same_group kh.1 k)
                          (zip keys high_load))))
  <$> keys.

(** ** [decision_engine.check_transformer_overload] *)

Definition overload_explanation (pct : float) : value :=
  VStr ("Transformer overload: " +:+ round_str (mul pct (Fin 100))
          +:+ "% of meters at high load").

Definition default_threshold : float := Fin 0.7.

Definition check_transformer_overload (df : DataFrame) (threshold : float)
  : option DataFrame :=
  if negb (in_columns df "transformer_id") then Some df else
  transformer_id ← column df "transformer_id";
  timestamp ← column df "timestamp";
  power ← float_column df "power";
  meter_id ← column df "meter_id";
  let high_load :=
    zip_with (λ p m, gt p (mul m (Fin 1.2))) power
      (transform_mean meter_id power) in
  let overload_pct :=
    transform_high_load_mean (zip transformer_id timestamp) high_load in
  let transformer_overload := (λ pct, gt pct threshold) <$> overload_pct in
  let df1 :=
    loc_set transformer_overload "pattern"
      ((λ _, VStr "transformer_overload") <$> overload_pct) df in
  let df2 :=
    loc_set transformer_overload "risk_score"
      ((λ _, VFloat (Fin 0.85)) <$> overload_pct) df1 in
  let df3 :=
    loc_set transformer_overload "explanation"
      (overload_explanation <$> overload_pct) df2 in
  Some df3.

(** ** What the engine takes from outside

    The scikit-learn pipeline, NumPy's square root, the pandas sort and
    CSV codec, joblib's codec and the repository's own [preprocess]
    module (not part of the sources at hand) are parameters of the
    development. *)

Class Externals : Type := {
  (** a fitted [sklearn.pipeline.Pipeline] *)
  Pipeline : Type;
  (** [model.predict(X)]: one label, 1 or -1, per row *)
  sk_predict : Pipeline → DataFrame → option (list Z);
  (** [model.decision_function(X)]: one score per row *)
  sk_decision_function : Pipeline → DataFrame → option (list float);
  (** square root, as used by the sample standard deviation *)
  np_sqrt : Q → Q;
  (** [preprocess.preprocess] *)
  preprocess : DataFrame → option DataFrame;
  (** [df.sort_values(by, ascending=...)] with the default sort kind *)
  sort_values : string → bool → DataFrame → option DataFrame;
  (** [pd.read_csv] on the content of a file, [df.to_csv(index=False)] *)
  read_csv : string → option DataFrame;
  to_csv : DataFrame → string;
  (** [joblib.dump] and [joblib.load] on the content of a file *)
  joblib_dumps : Pipeline → string;
  joblib_loads : string → option Pipeline;
}.

(** ** Files *)

Abbreviation Path := (list string).

Record FileSystem : Type := mkFileSystem {
  directories : gset Path;
  files : gmap Path string;
}.

Definition parent (path : Path) : Path := take (length path - 1) path.

Definition is_dir (path : Path) (fs : FileSystem) : bool :=
  bool_decide (path = []) || bool_decide (path ∈ directories fs).

Definition is_file (path : Path) (fs : FileSystem) : bool :=
  if files fs !! path is Some _ then true else false.

(** [path.exists()] *)
Definition path_exists (path : Path) (fs : FileSystem) : bool :=
  is_dir path fs || is_file path fs.

(** The path itself and everything above it, the root left out. *)
Definition ancestors (path : Path) : list Path :=
  (λ n, take n path) <$> seq 1 (length path).

(** [path.mkdir(parents=True, exist_ok=True)] *)
Definition mkdir_parents (path : Path) (fs : FileSystem)
  : option FileSystem :=
  if existsb (λ p, is_file p fs) (ancestors path) then None
  else Some {| directories := directories fs ∪ list_to_set (ancestors path);
               files := files fs |}.

Definition write_file (path : Path) (content : string) (fs : FileSystem)
  : option FileSystem :=
  if is_dir (parent path) fs && negb (is_dir path fs) then
    Some {| directories := directories fs;
            files := <[path := content]> (files fs) |}
  else None.

Definition read_file (path : Path) (fs : FileSystem) : option string :=
  files fs !! path.

(** ** More frame operations *)

(** The row as [df.apply(..., axis=1)] hands it over: one cell for each
    column of the frame, missing ones read as [NaN]. *)
Definition series_view (cols : list string) (row : Series) : Series :=
  list_to_map ((λ label, (label, cell row label)) <$> cols).

Definition iterrows (df : DataFrame) : list Series :=
  series_view (columns df) <$> rows df.

(** [df[labels]] for a list of labels. *)
Definition select (labels : list string) (df : DataFrame)
  : option DataFrame :=
  if forallb (in_columns df) labels then
    Some {| columns := labels; rows := series_view labels <$> rows df |}
  else None.

(** [pd.DataFrame(records)]: the columns are the keys met in the records
    (their order plays no part below). *)
Definition from_records (records : list Series) : DataFrame :=
  {| columns := remove_dups (records ≫= (λ r, (map_to_list r).*1));
     rows := records |}.

(** The group labels of [groupby(key)]: the distinct keys, missing ones
    dropped. pandas sorts them; label lookups do not see the order. *)
Definition group_keys (keys : list value) : list value :=
  foldr (λ k acc,
           if isna k then acc
           else k :: filter (λ k' : value, negb (py_eq k' k)) acc)
        [] keys.

Definition group_members (keys : list value) (vals : list float) (k : value)
  : list float :=
  snd <$> filter (λ kv : value * float, py_eq kv.1 k) (zip keys vals).

(** The sample standard deviation ([ddof=1]) of a group, [NaN] cells
    skipped; [NaN] for fewer than two values. *)
Definition std {ext : Externals} (l : list float) : float :=
  let qs := finite l in
  let n := inject_Z (Z.of_nat (length qs)) in
  if (length qs <? 2)%nat then NaN
  else
    let m := (Qsum qs / n)%Q in
    Fin (np_sqrt (Qsum ((λ q, (q - m) * (q - m))%Q <$> qs) / (n - 1))%Q).

(** ** [model.py] *)

Module Model.

Definition FEATURE_COLS : list string :=
  ["kwh_denoised"; "power"; "rolling_avg_power"; "deviation_from_normal";
   "voltage"; "current"; "energy_kwh"].

Definition CAT_COLS : list string := ["meter_id"].

Definition save_model {ext : Externals} (model : Pipeline) (path : Path)
    (fs : FileSystem) : option FileSystem :=
  fs ← mkdir_parents (parent path) fs;
  write_file path (joblib_dumps model) fs.

Definition load_model {ext : Externals} (path : Path) (fs : FileSystem)
  : option Pipeline :=
  read_file path fs ≫= joblib_loads.

Definition predict {ext : Externals} (model : Pipeline) (records : list Series)
  : option DataFrame :=
  let df := from_records records in
  processed ← preprocess df;
  X ← select (FEATURE_COLS ++ CAT_COLS) processed;
  predictions ← sk_predict model X;
  scores ← sk_decision_function model X;
  processed ← set_column "prediction" (VInt <$> predictions) processed;
  set_column "anomaly_score" (VFloat <$> scores) processed.

End Model.

(** ** [decision_engine.py], continued *)

Definition load_data {ext : Externals} (path : Path) (fs : FileSystem)
  : option DataFrame :=
  content ← read_file path fs;
  df ← read_csv content;
  sort_values "timestamp" true df.

(** [df.groupby("meter_id").agg({...})] with the flattened column names
    of line 80. *)
Definition baseline {ext : Externals} (voltage current power : list float)
  : Series :=
  <["voltage_mean" := VFloat (mean voltage)]>
  (<["voltage_std" := VFloat (std voltage)]>
  (<["current_mean" := VFloat (mean current)]>
  (<["current_std" := VFloat (std current)]>
  (<["power_mean" := VFloat (mean power)]>
  (<["power_std" := VFloat (std power)]> ∅))))).

Definition agg_stats {ext : Externals} (meter_id : list value)
    (voltage current power : list float) : list (value * Series) :=
  (λ k, (k, baseline (group_members meter_id voltage k)
                     (group_members meter_id current k)
                     (group_members meter_id power k)))
  <$> group_keys meter_id.

(** Lines 72-78. *)
Definition attach_verdicts {ext : Externals} (df : DataFrame)
    (model : option Pipeline) : option DataFrame :=
  match model with
  | Some model =>
      X ← select (Model.FEATURE_COLS ++ Model.CAT_COLS) df;
      prediction ← sk_predict model X;
      df ← set_column "prediction" (VInt <$> prediction) df;
      anomaly_score ← sk_decision_function model X;
      set_column "anomaly_score" (VFloat <$> anomaly_score) df
  | None =>
      Some (set_scalar "anomaly_score" (VFloat (Fin 0.0))
              (set_scalar "prediction" (VInt 1) df))
  end.

Definition analyze_patterns {ext : Externals} (processed : DataFrame)
    (model : option Pipeline) : option DataFrame :=
  df ← attach_verdicts processed model;
  meter_id ← column df "meter_id";
  voltage ← float_column df "voltage";
  current ← float_column df "current";
  power ← float_column df "power";
  let grouped_stats := agg_stats meter_id voltage current power in
  patterns ← mapM (λ row, detect_pattern row grouped_stats) (iterrows df);
  df ← set_column "pattern" ((λ x : Verdict, VStr x.1.1) <$> patterns) df;
  df ← set_column "risk_score" ((λ x : Verdict, VFloat x.1.2) <$> patterns) df;
  df ← set_column "explanation" ((λ x : Verdict, VStr x.2) <$> patterns) df;
  check_transformer_overload df default_threshold.

(** Lines 100-105: the model is loaded only from a path that exists. *)
Definition choose_model {ext : Externals} (model_path : option Path)
    (fs : FileSystem) : option (option Pipeline) :=
  match model_path with
  | Some path =>
      if path_exists path fs then Some <$> Model.load_model path fs
      else Some None
  | None => Some None
  end.

(** Line 107: [decisions["alert"] = decisions["pattern"] != "normal"]. *)
Definition attach_alert (decisions : DataFrame) : option DataFrame :=
  pattern ← column decisions "pattern";
  set_column "alert"
    ((λ v, VBool (negb (py_eq v (VStr "normal")))) <$> pattern) decisions.

(** Lines 98-107: the decision table before it is sorted. *)
Definition decide_rows {ext : Externals} (data_path : Path)
    (model_path : option Path) (fs : FileSystem) : option DataFrame :=
  raw ← load_data data_path fs;
  processed ← preprocess raw;
  model ← choose_model model_path fs;
  decisions ← analyze_patterns processed model;
  attach_alert decisions.

(** Paths arrive as paths (lines 91-96 only convert strings); the
    messages printed on the way are not modelled. *)
Definition run_engine {ext : Externals} (data_path : Path)
    (model_path output_path : option Path) (fs : FileSystem)
  : option (DataFrame * FileSystem) :=
  decisions ← decide_rows data_path model_path fs;
  decisions ← sort_values "risk_score" false decisions;
  match output_path with
  | Some output_path =>
      fs ← mkdir_parents (parent output_path) fs;
      fs ← write_file output_path (to_csv decisions) fs;
      Some (decisions, fs)
  | None => Some (decisions, fs)
  end.

(** ** The aggregator read row by row

    [check_transformer_overload] works on whole columns. The definitions
    below say the same thing for one row at a time; the theorems relate
    the two. *)

Definition power_of (row : Series) : float :=
  default NaN (to_float (cell row "power")).

(** The mean power of the row's meter over the batch. *)
Definition meter_mean_power (df : DataFrame) (row : Series) : float :=
  let k := cell row "meter_id" in
  if isna k then NaN
  else mean (power_of <$>
               filter (λ r : Series, py_eq (cell r "meter_id") k) (rows df)).

Definition high_load (df : DataFrame) (row : Series) : bool :=
  gt (power_of row) (mul (meter_mean_power df row) (Fin 1.2)).

Definition group_key (row : Series) : value * value :=
  (cell row "transformer_id", cell row "timestamp").

(** The readings that share the row's transformer and timestamp. *)
Definition group_of (df : DataFrame) (row : Series) : list Series :=
  filter (λ r : Series, same_group (group_key r) (group_key row)) (rows df).

Definition overload_pct (df : DataFrame) (row : Series) : float :=
  if isna (group_key row).1 || isna (group_key row).2 then NaN
  else mean (bool_float <$> (high_load df <$> group_of df row)).

Definition override (pct : float) (row : Series) : Series :=
  <["explanation" := overload_explanation pct]>
  (<["risk_score" := VFloat (Fin 0.85)]>
  (<["pattern" := VStr "transformer_overload"]> row)).

Definition override_if (threshold : float) (df : DataFrame) (row : Series)
  : Series :=
  if gt (overload_pct df row) threshold then override (overload_pct df row) row
  else row.



(** The three columns the aggregator writes. *)
Definition decision_columns : list string :=
  ["pattern"; "risk_score"; "explanation"].

(** ** Vocabulary of the statements *)

(** Line 23: the outlier model flagged the row. *)
Definition flagged (row : Series) : bool :=
  py_eq (default (VInt 1) (row !! "prediction")) (VInt (-1)).

(** The five returns of [detect_pattern]. *)
Inductive verdict_of (is_anomaly : bool) : Verdict → Prop :=
| verdict_signature voltage voltage_mean current current_mean :
    verdict_of is_anomaly
      ("theft", if is_anomaly then Fin 0.9 else Fin 0.6,
       signature_explanation voltage voltage_mean current current_mean)
| verdict_spike power z_score :
    verdict_of is_anomaly
      ("fault", if is_anomaly then Fin 0.7 else Fin 0.4,
       spike_explanation power z_score)
| verdict_suppression power_ratio power rolling_avg_power :
    verdict_of is_anomaly
      ("theft", if is_anomaly then Fin 0.8 else Fin 0.5,
       suppression_explanation power_ratio power rolling_avg_power)
| verdict_anomaly score :
    is_anomaly = true →
    verdict_of is_anomaly ("anomaly", Fin 0.5, anomaly_explanation score)
| verdict_normal :
    is_anomaly = false →
    verdict_of is_anomaly ("normal", Fin 0.0, "Normal operation").

(** Lines 82-84 on one row. *)
Definition with_verdict (v : Verdict) (row : Series) : Series :=
  <["explanation" := VStr v.2]>
  (<["risk_score" := VFloat v.1.2]>
  (<["pattern" := VStr v.1.1]> row)).

Definition add_decision_columns (cols : list string) : list string :=
  add_column "explanation" (add_column "risk_score" (add_column "pattern" cols)).

(** The baseline table [analyze_patterns] builds from a frame. *)
Definition baselines {ext : Externals} (df : DataFrame)
  : list (value * Series) :=
  agg_stats ((λ row, cell row "meter_id") <$> rows df)
    ((λ row, default NaN (to_float (cell row "voltage"))) <$> rows df)
    ((λ row, default NaN (to_float (cell row "current"))) <$> rows df)
    ((λ row, default NaN (to_float (cell row "power"))) <$> rows df).

(** The values the [pattern] column can take. *)
Definition known_patterns : list string :=
  ["normal"; "theft"; "fault"; "transformer_overload"; "anomaly"].

(** *** What pandas promises of [sort_values]

    The default sort kind is quicksort, which pandas documents as not
    stable: the result is the rows rearranged so that the keys are in
    order, missing keys last; nothing is said of rows with equal keys. *)

Definition sort_key (label : string) (row : Series) : float :=
  default NaN (to_float (cell row label)).

(** [a] may stand before [b]. *)
Definition in_order (ascending : bool) (a b : float) : bool :=
  match a, b with
  | _, NaN => true
  | NaN, Fin _ => false
  | Fin x, Fin y => if ascending then Qle_bool x y else Qle_bool y x
  end.

Definition row_order (label : string) (ascending : bool) : relation Series :=
  λ r1 r2, in_order ascending (sort_key label r1) (sort_key label r2).

Definition sort_values_spec {ext : Externals} : Prop :=
  ∀ label ascending df out,
    sort_values label ascending df = Some out →
    columns out = columns df
    ∧ rows out ≡ₚ rows df
    ∧ Sorted (row_order label ascending) (rows out).


(** *** What joblib promises of [dump] and [load]

    Loading what was dumped gives a pipeline that predicts and scores
    as the dumped one does. *)
Definition joblib_spec {ext : Externals} : Prop :=
  ∀ model, ∃ model',
    joblib_loads (joblib_dumps model) = Some model'
    ∧ (∀ X, sk_predict model' X = sk_predict model X)
    ∧ (∀ X, sk_decision_function model' X = sk_decision_function model X).

(** ** Concrete inputs

    Two instances of the outside world, used to run the engine on
    concrete readings: they differ in the sort only. *)

(** A stable sort. *)
Definition merge_sort_values (label : string) (ascending : bool)
    (df : DataFrame) : option DataFrame :=
  if in_columns df label then
    Some {| columns := columns df;
            rows := merge_sort (row_order label ascending) (rows df) |}
  else None.


Definition reading (meter_id : string) (timestamp : Z)
    (voltage current power rolling : Q) : Series :=
  <["meter_id" := VStr meter_id]>
  (<["timestamp" := VInt timestamp]>
  (<["voltage" := VFloat (Fin voltage)]>
  (<["current" := VFloat (Fin current)]>
  (<["power" := VFloat (Fin power)]>
  (<["rolling_avg_power" := VFloat (Fin rolling)]> ∅))))).

Definition example_readings : DataFrame :=
  {| columns := ["meter_id"; "timestamp"; "voltage"; "current"; "power";
                 "rolling_avg_power"];
     rows := [reading "M1" 0 230 10 5 5; reading "M2" 0 231 11 6 6;
              reading "M1" 1 190 14 5 5; reading "M2" 1 231 11 2 6] |}.

Definition floor_sqrt (q : Q) : Q :=
  Z.sqrt (Qnum q * Zpos (Qden q)) # Qden q.

Definition example_externals_with
    (sort : string → bool → DataFrame → option DataFrame) : Externals :=
  {| Pipeline := bool;
     sk_predict flag X := Some ((λ _, if flag then -1 else 1) <$> rows X);
     sk_decision_function flag X :=
       Some ((λ _, if flag then Fin (-0.1) else Fin 0.1) <$> rows X);
     np_sqrt := floor_sqrt;
     preprocess := Some;
     sort_values := sort;
     read_csv content :=
       if bool_decide (content = "readings") then Some example_readings
       else None;
     to_csv df := String.concat "," (columns df);
     joblib_dumps flag := if flag then "1" else "0";
     joblib_loads content :=
       if bool_decide (content = "1") then Some true
       else if bool_decide (content = "0") then Some false
       else None |}.

Definition example_externals : Externals :=
  example_externals_with merge_sort_values.


Definition example_data_path : Path := ["data"; "live_data.csv"].

Definition example_model_path : Path := ["artifacts"; "anomaly_model.joblib"].

Definition example_fs : FileSystem :=
  {| directories := {[ ["data"] ]};
     files := {[ example_data_path := "readings" ]} |}.

Definition empty_frame : DataFrame := {| columns := []; rows := [] |}.

(** The table [analyze_patterns] gives for the example readings, no
    model supplied. *)
Definition example_analyzed : DataFrame := Eval vm_compute in
    default empty_frame
      (analyze_patterns (ext := example_externals) example_readings None).

(** The table [run_engine] returns for them. *)
Definition example_decisions : DataFrame := Eval vm_compute in
    default empty_frame
      (fst <$> run_engine (ext := example_externals)
                 example_data_path None None example_fs).

(** The file system after the flagging pipeline was saved. *)
Definition example_saved_fs : FileSystem := Eval vm_compute in
    default example_fs
      (Model.save_model (ext := example_externals) true example_model_path
         example_fs).

(** Four meters under one transformer at two instants; at the second
    instant three of the four draw twice their usual power. *)
Definition metered (meter_id : string) (timestamp : Z) (power : Q) : Series :=
  <["meter_id" := VStr meter_id]>
  (<["transformer_id" := VStr "T1"]>
  (<["timestamp" := VInt timestamp]>
  (<["power" := VFloat (Fin power)]>
  (<["pattern" := VStr "normal"]>
  (<["risk_score" := VFloat (Fin 0.0)]>
  (<["explanation" := VStr "Normal operation"]> ∅)))))).

Definition overload_example : DataFrame :=
  {| columns := ["meter_id"; "transformer_id"; "timestamp"; "power";
                 "pattern"; "risk_score"; "explanation"];
     rows := [metered "A" 0 1; metered "B" 0 1; metered "C" 0 1;
              metered "D" 0 1; metered "A" 1 2; metered "B" 1 2;
              metered "C" 1 2; metered "D" 1 1] |}.

Definition overload_example_result : DataFrame := Eval vm_compute in
    default empty_frame
      (check_transformer_overload overload_example default_threshold).

(** The first scenarios of the specification in one row: meter M1 with
    baseline 230 V, 10 A, 5 kW (std 1 kW) reads 190 V, 14 A, 9.2 kW. *)
Definition scenario_row : Series :=
  <["meter_id" := VStr "M1"]>
  (<["voltage" := VFloat (Fin 190)]>
  (<["current" := VFloat (Fin 14)]>
  (<["power" := VFloat (Fin 9.2)]> ∅))).

Definition scenario_stats : Series :=
  <["voltage_mean" := VFloat (Fin 230)]>
  (<["current_mean" := VFloat (Fin 10)]>
  (<["power_mean" := VFloat (Fin 5)]>
  (<["power_std" := VFloat (Fin 1)]> ∅))).


(** The reading of M2 at the second instant, in both tables. *)
Definition example_analyzed_row : Series := Eval vm_compute in
  default ∅ (rows example_analyzed !! 3%nat).

Definition example_decision_row : Series := Eval vm_compute in
  default ∅ (rows example_decisions !! 0%nat).

(** ** Vocabulary of the further statements *)

(** The readings of the batch that belong to the meter of [row]. *)
Definition readings_of (df : DataFrame) (row : Series) : list Series :=
  filter (λ r : Series, py_eq (cell r "meter_id") (cell row "meter_id"))
    (rows df).

(** A column of some rows, read as numbers. *)
Definition float_cells (label : string) (l : list Series) : list float :=
  (λ r, default NaN (to_float (cell r label))) <$> l.

(** The two columns lines 72-78 write. *)
Definition verdict_columns : list string := ["prediction"; "anomaly_score"].

(** The six columns the engine adds to the readings. *)
Definition engine_columns : list string :=
  ["prediction"; "anomaly_score"; "pattern"; "risk_score"; "explanation";
   "alert"].

(** Two rows hold the same cells under every label outside [cols]. *)
Definition agree_outside (cols : list string) (row row0 : Series) : Prop :=
  ∀ c, c ∉ cols → row !! c = row0 !! c.

(** ** [model.py]: training *)

(** [make_pipeline()] followed by [pipe.fit(X)]: one more thing taken
    from scikit-learn. *)
Class Training {ext : Externals} : Type := {
  pipeline_fit : DataFrame → option Pipeline;
}.

Module Train.

(** Line 34. *)
Definition load_data {ext : Externals} (path : Path) (fs : FileSystem)
  : option DataFrame :=
  read_file path fs ≫= read_csv.

(** A row with no missing cell under the given columns. *)
Definition complete (cols : list string) (row : Series) : bool :=
  forallb (λ c, negb (isna (cell row c))) cols.

(** [df.dropna()] *)
Definition dropna (df : DataFrame) : DataFrame :=
  {| columns := columns df;
     rows := filter (λ row : Series, complete (columns df) row) (rows df) |}.

Definition build_dataset {ext : Externals} (df : DataFrame)
  : option DataFrame :=
  processed ← preprocess df;
  X ← select (Model.FEATURE_COLS ++ Model.CAT_COLS) processed;
  Some (dropna X).

(** [(predictions == label).sum()] *)
Definition count_label (label : Z) (predictions : list Z) : nat :=
  length (filter (λ p, p = label) predictions).

(** [n / total * 100] on NumPy numbers: 0/0 is [nan], no exception. *)
Definition percent (n total : nat) : float :=
  mul (div (Fin (inject_Z (Z.of_nat n))) (Fin (inject_Z (Z.of_nat total))))
      (Fin 100).

Definition float_min (a b : float) : float :=
  match a, b with
  | Fin x, Fin y => Fin (if Qle_bool x y then x else y)
  | _, _ => NaN
  end.

Definition float_max (a b : float) : float :=
  match a, b with
  | Fin x, Fin y => Fin (if Qle_bool x y then y else x)
  | _, _ => NaN
  end.

(** [scores.min()], [scores.max()]: a [ValueError] on an empty array. *)
Definition np_min (scores : list float) : option float :=
  match scores with
  | [] => None
  | a :: rest => Some (foldl float_min a rest)
  end.

Definition np_max (scores : list float) : option float :=
  match scores with
  | [] => None
  | a :: rest => Some (foldl float_max a rest)
  end.

Definition nl : string := String (Ascii.ascii_of_nat 10) EmptyString.

(** The f-string of lines 102-108. *)
Definition training_summary (total n_normal n_anomaly : nat)
    (score_min score_max : float) : string :=
  nl +:+ "Training complete:" +:+ nl
    +:+ "- Total samples: " +:+ pretty total +:+ nl
    +:+ "- Normal (1): " +:+ pretty n_normal +:+ " ("
    +:+ format_fixed 1 (percent n_normal total) +:+ "%)" +:+ nl
    +:+ "- Anomaly (-1): " +:+ pretty n_anomaly +:+ " ("
    +:+ format_fixed 1 (percent n_anomaly total) +:+ "%)" +:+ nl
    +:+ "- Anomaly score range: [" +:+ format_fixed 3 score_min +:+ ", "
    +:+ format_fixed 3 score_max +:+ "]" +:+ nl.

Definition train_model {ext : Externals} {trn : Training} (df : DataFrame)
  : option (Pipeline * string) :=
  X ← build_dataset df;
  pipe ← pipeline_fit X;
  predictions ← sk_predict pipe X;
  scores ← sk_decision_function pipe X;
  let n_normal := count_label 1 predictions in
  let n_anomaly := count_label (-1) predictions in
  score_min ← np_min scores;
  score_max ← np_max scores;
  Some (pipe,
        training_summary (length (rows X)) n_normal n_anomaly
          score_min score_max).

(** A path as [print] shows it. *)
Definition path_str (path : Path) : string := String.concat "/" path.

(** Lines 154-163, the arguments already parsed; the result holds the
    lines printed and the file system left behind. *)
Definition main {ext : Externals} {trn : Training}
    (data_path model_out : Path) (fs : FileSystem)
  : option (list string * FileSystem) :=
  df ← load_data data_path fs;
  trained ← train_model df;
  fs ← Model.save_model trained.1 model_out fs;
  Some (["Model saved to " +:+ path_str model_out; trained.2], fs).

End Train.

(** What scikit-learn promises of [predict] and [decision_function]:
    one label and one score for each row. *)
Definition per_row_spec {ext : Externals} : Prop :=
  ∀ pipe X,
    (∀ predictions, sk_predict pipe X = Some predictions →
                    length predictions = length (rows X))
    ∧ (∀ scores, sk_decision_function pipe X = Some scores →
                 length scores = length (rows X)).

(** ** [email_service.get_risk_badge] *)

Module EmailService.

Definition dq : string := String (Ascii.ascii_of_nat 34) EmptyString.

Definition ge (a b : float) : bool :=
  match a, b with
  | Fin x, Fin y => Qle_bool y x
  | _, _ => false
  end.

Definition span (class level : string) (risk_score : float) : string :=
  "<span class=" +:+ dq +:+ class +:+ dq +:+ ">" +:+ level +:+ ": "
    +:+ format_fixed 2 risk_score +:+ "</span>".

Definition get_risk_badge (risk_score : float) : string :=
  if ge risk_score (Fin 0.7) then span "risk-high" "HIGH" risk_score
  else if ge risk_score (Fin 0.5) then span "risk-medium" "MEDIUM" risk_score
  else span "risk-low" "LOW" risk_score.

(** Line 117: the badge of an alert record, a missing score read as 0. *)
Definition alert_badge (alert_data : Series) : option string :=
  get_risk_badge <$> to_float (default (VInt 0) (alert_data !! "risk_score")).

End EmailService.

(** ** [auth.py]

    The user store is a JSON object of objects; its leaves are strings,
    numbers and booleans, the cells of a [Series]. *)

Abbreviation Users := (gmap string Series).

(** [json.dump(obj, f, indent=2)], [json.load(f)] and
    [hashlib.sha256(s.encode()).hexdigest()]. *)
Class Library : Type := {
  json_dumps : Users → string;
  json_loads : string → option Users;
  sha256_hexdigest : string → string;
}.

(** What is assumed of [json]: a dumped object loads back. *)
Definition json_spec {lib : Library} : Prop :=
  ∀ obj, json_loads (json_dumps obj) = Some obj.

(** Python's truth value of a cell. *)
Definition truthy (v : value) : bool :=
  match v with
  | VStr s => negb (bool_decide (s = EmptyString))
  | VInt n => negb (n =? 0)
  | VBool b => b
  | VFloat (Fin q) => negb (Qeq_bool q 0)
  | VFloat NaN => true
  end.

Module Auth.

Definition USERS_FILE : Path := ["artifacts"; "users.json"].

Definition hash_password {lib : Library} (password : string) : string :=
  sha256_hexdigest password.

Definition load_users {lib : Library} (fs : FileSystem) : option Users :=
  if path_exists USERS_FILE fs then read_file USERS_FILE fs ≫= json_loads
  else Some ∅.

Definition save_users {lib : Library} (users : Users) (fs : FileSystem)
  : option FileSystem :=
  fs ← mkdir_parents (parent USERS_FILE) fs;
  write_file USERS_FILE (json_dumps users) fs.

(** The dict literal of lines 37-43 and 94-100. *)
Definition user_record {lib : Library}
    (password role name email : string) (alerts_enabled : bool) : Series :=
  <["password" := VStr (hash_password password)]>
  (<["role" := VStr role]>
  (<["name" := VStr name]>
  (<["email" := VStr email]>
  (<["alerts_enabled" := VBool alerts_enabled]> ∅)))).

Definition default_users {lib : Library} : Users :=
  <["admin" := user_record "admin123" "admin" "Administrator"
                 "admin@smartgrid.local" true]>
  (<["operator" := user_record "operator123" "operator" "Grid Operator"
                     "operator@smartgrid.local" true]>
  (<["viewer" := user_record "viewer123" "viewer" "Data Viewer"
                   "viewer@smartgrid.local" false]> ∅)).

Definition create_default_users {lib : Library} (fs : FileSystem)
  : option FileSystem :=
  users ← load_users fs;
  if bool_decide (users = ∅) then save_users default_users fs else Some fs.

Definition authenticate_user {lib : Library} (username password : string)
    (fs : FileSystem) : option (bool * option string * option value) :=
  users ← load_users fs;
  match users !! username with
  | None => Some (false, None, None)
  | Some user =>
      stored ← user !! "password";
      if py_eq stored (VStr (hash_password password)) then
        Some (true, Some username,
              Some (default (VStr "viewer") (user !! "role")))
      else Some (false, None, None)
  end.

Definition register_user {lib : Library}
    (username password name role email : string) (fs : FileSystem)
  : option (bool * string * FileSystem) :=
  users ← load_users fs;
  if users !! username is Some _ then
    Some (false, "Username already exists", fs)
  else if (String.length password <? 6)%nat then
    Some (false, "Password must be at least 6 characters", fs)
  else
    let users := <[username := user_record password role name email true]> users in
    fs ← save_users users fs;
    Some (true, "User '" +:+ username +:+ "' created successfully", fs).

Definition change_password {lib : Library}
    (username old_password new_password : string) (fs : FileSystem)
  : option (bool * string * FileSystem) :=
  users ← load_users fs;
  match users !! username with
  | None => Some (false, "User not found", fs)
  | Some user =>
      stored ← user !! "password";
      if negb (py_eq stored (VStr (hash_password old_password))) then
        Some (false, "Old password is incorrect", fs)
      else if (String.length new_password <? 6)%nat then
        Some (false, "New password must be at least 6 characters", fs)
      else
        let user := <["password" := VStr (hash_password new_password)]> user in
        fs ← save_users (<[username := user]> users) fs;
        Some (true, "Password changed successfully", fs)
  end.

Definition get_user_info {lib : Library} (username : string) (fs : FileSystem)
  : option (option Series) :=
  users ← load_users fs;
  Some (users !! username).

(** The dict built for each user at lines 138-141. *)
Definition listed (username : string) (user : Series) : Series :=
  <["name" := default (VStr username) (user !! "name")]>
  (<["role" := default (VStr "viewer") (user !! "role")]> ∅).

Definition list_all_users {lib : Library} (fs : FileSystem) : option Users :=
  users ← load_users fs;
  Some (map_imap (M := gmap string)
          (λ username user, Some (listed username user)) users).

Definition delete_user {lib : Library} (username : string) (fs : FileSystem)
  : option (bool * string * FileSystem) :=
  users ← load_users fs;
  if users !! username is None then Some (false, "User not found", fs)
  else if bool_decide (username = "admin") then
    Some (false, "Cannot delete admin user", fs)
  else
    fs ← save_users (delete username users) fs;
    Some (true, "User '" +:+ username +:+ "' deleted successfully", fs).

Definition valid_roles : list string := ["admin"; "operator"; "viewer"].

Definition update_user_role {lib : Library} (username new_role : string)
    (fs : FileSystem) : option (bool * string * FileSystem) :=
  users ← load_users fs;
  match users !! username with
  | None => Some (false, "User not found", fs)
  | Some user =>
      if negb (bool_decide (new_role ∈ valid_roles)) then
        Some (false,
              "Invalid role. Must be one of: " +:+ String.concat ", " valid_roles,
              fs)
      else
        fs ← save_users (<[username := <["role" := VStr new_role]> user]> users) fs;
        Some (true,
              "User '" +:+ username +:+ "' role updated to '" +:+ new_role +:+ "'",
              fs)
  end.

(** ["@" in email] *)
Fixpoint has_at (email : string) : bool :=
  match email with
  | EmptyString => false
  | String c rest => Ascii.eqb c (Ascii.ascii_of_nat 64) || has_at rest
  end.

Definition update_user_email {lib : Library} (username email : string)
    (fs : FileSystem) : option (bool * string * FileSystem) :=
  users ← load_users fs;
  match users !! username with
  | None => Some (false, "User not found", fs)
  | Some user =>
      if bool_decide (email = EmptyString) || negb (has_at email) then
        Some (false, "Invalid email address", fs)
      else
        fs ← save_users (<[username := <["email" := VStr email]> user]> users) fs;
        Some (true, "Email updated to " +:+ email, fs)
  end.

Definition toggle_user_alerts {lib : Library} (username : string)
    (fs : FileSystem) : option (bool * string * FileSystem) :=
  users ← load_users fs;
  match users !! username with
  | None => Some (false, "User not found", fs)
  | Some user =>
      let current_state :=
        truthy (default (VBool false) (user !! "alerts_enabled")) in
      let user := <["alerts_enabled" := VBool (negb current_state)]> user in
      fs ← save_users (<[username := user]> users) fs;
      let status := if negb current_state then "enabled" else "disabled" in
      Some (true, "Alerts " +:+ status +:+ " for user '" +:+ username +:+ "'", fs)
  end.

(** Lines 209-210, run when the module is imported. *)
Definition init {lib : Library} (fs : FileSystem) : option FileSystem :=
  if negb (path_exists USERS_FILE fs) then create_default_users fs
  else Some fs.

End Auth.

(** ** [email_service.py]: the configuration file

    [config.json] is taken to hold an object of objects, as the user
    store does. *)

Module EmailConfig.

Definition CONFIG_FILE : Path := ["config.json"].

Definition default_config : Series :=
  <["enabled" := VBool false]>
  (<["smtp_server" := VStr "smtp.gmail.com"]>
  (<["smtp_port" := VInt 587]>
  (<["sender_email" := VStr EmptyString]>
  (<["sender_password" := VStr EmptyString]>
  (<["use_tls" := VBool true]> ∅))))).

Definition load_email_config {lib : Library} (fs : FileSystem)
  : option Series :=
  if path_exists CONFIG_FILE fs then
    config ← read_file CONFIG_FILE fs ≫= json_loads;
    Some (default ∅ (config !! "email"))
  else Some default_config.

Definition save_email_config {lib : Library} (config : Series)
    (fs : FileSystem) : option FileSystem :=
  full_config ←
    (if path_exists CONFIG_FILE fs then read_file CONFIG_FILE fs ≫= json_loads
     else Some ∅);
  write_file CONFIG_FILE (json_dumps (<["email" := config]> full_config)) fs.

End EmailConfig.

(** ** More concrete inputs *)

(** The second reading of the example with its meter identifier lost. *)
Definition unmetered_readings : DataFrame :=
  {| columns := columns example_readings;
     rows := [reading "M1" 0 230 10 5 5;
              delete "meter_id" (reading "M2" 0 231 11 6 6)] |}.


(** Meter M2 with one reading only, far from those of M1. *)
Definition lone_readings : DataFrame :=
  {| columns := columns example_readings;
     rows := [reading "M1" 0 230 10 5 5; reading "M2" 0 231 11 60 6;
              reading "M1" 1 190 14 5 5] |}.

Definition lone_analyzed : DataFrame := Eval vm_compute in
    default empty_frame
      (analyze_patterns (ext := example_externals) lone_readings None).

Definition lone_row : Series := Eval vm_compute in
  default ∅ (rows lone_analyzed !! 1%nat).

(** The overload example checked against a threshold of 1. *)
Definition overload_example_unchecked : DataFrame := Eval vm_compute in
    default empty_frame (check_transformer_overload overload_example (Fin 1)).

Definition example_output_path : Path := ["out"; "decisions.csv"].

(** The file system after the engine wrote its decisions. *)
Definition example_written_fs : FileSystem := Eval vm_compute in
    default example_fs
      (snd <$> run_engine (ext := example_externals)
                 example_data_path None (Some example_output_path) example_fs).

(** A preprocessing that adds the feature columns the readings lack;
    the deviation from normal has no value at the first instant, as
    with a rolling window. *)
Definition with_features (row : Series) : Series :=
  <["kwh_denoised" := cell row "power"]>
  (<["energy_kwh" := cell row "power"]>
  (<["deviation_from_normal" :=
       if py_eq (cell row "timestamp") (VInt 0) then NA
       else VFloat (Fin 0)]> row)).

Definition feature_externals : Externals :=
  {| Pipeline := bool;
     sk_predict := @sk_predict example_externals;
     sk_decision_function := @sk_decision_function example_externals;
     np_sqrt := floor_sqrt;
     preprocess df :=
       Some {| columns := columns df ++ ["kwh_denoised"; "energy_kwh";
                                         "deviation_from_normal"];
               rows := with_features <$> rows df |};
     sort_values := merge_sort_values;
     read_csv := @read_csv example_externals;
     to_csv := @to_csv example_externals;
     joblib_dumps := @joblib_dumps example_externals;
     joblib_loads := @joblib_loads example_externals |}.

(** A fit that always gives the pipeline that flags nothing. *)
Definition example_training : Training (ext := feature_externals) :=
  @Build_Training feature_externals (λ _, Some false).



(** The readings of the first instant alone. *)
Definition first_readings : DataFrame :=
  {| columns := columns example_readings;
     rows := [reading "M1" 0 230 10 5 5; reading "M2" 0 231 11 6 6] |}.

Definition first_dataset : DataFrame := Eval vm_compute in
    default empty_frame
      (Train.build_dataset (ext := feature_externals) first_readings).

Definition example_training_output : list string := Eval vm_compute in
    default []
      (fst <$> Train.main (ext := feature_externals) (trn := example_training)
                 example_data_path example_model_path example_fs).

Definition example_trained_fs : FileSystem := Eval vm_compute in
    default example_fs
      (snd <$> Train.main (ext := feature_externals) (trn := example_training)
                 example_data_path example_model_path example_fs).

(** A library for the user store: an object is written as the bytes
    of its code, and the digest of a password is the password behind a
    mark. *)
Module ExampleLibrary.

#[local] Instance Q_eq_dec : EqDecision Q.
Proof. solve_decision. Defined.

#[local] Instance float_eq_dec : EqDecision float.
Proof. solve_decision. Defined.

#[local] Instance float_countable : Countable float :=
  inj_countable'
    (λ a, match a with NaN => None | Fin q => Some (Qnum q, Qden q) end)
    (λ o, match o with None => NaN | Some (n, d) => Fin (n # d) end)
    (λ a, match a with NaN => eq_refl | Fin (n # d) => eq_refl end).

#[local] Instance value_eq_dec : EqDecision value.
Proof. solve_decision. Defined.

#[local] Instance value_countable : Countable value :=
  inj_countable'
    (λ v, match v with
          | VFloat x => inl (inl x) | VInt n => inl (inr n)
          | VBool b => inr (inl b) | VStr s => inr (inr s)
          end)
    (λ e, match e with
          | inl (inl x) => VFloat x | inl (inr n) => VInt n
          | inr (inl b) => VBool b | inr (inr s) => VStr s
          end)
    (λ v, match v with
          | VFloat _ | VInt _ | VBool _ | VStr _ => eq_refl
          end).

(** The binary digits of a code, lowest first, and back. *)
Fixpoint bits (p : positive) : list bool :=
  match p with
  | xH => []
  | xO p => false :: bits p
  | xI p => true :: bits p
  end.

Fixpoint of_bits (l : list bool) : positive :=
  match l with
  | [] => xH
  | false :: l => xO (of_bits l)
  | true :: l => xI (of_bits l)
  end.

(** Seven digits to a byte, its high bit set; what is left at the end
    goes one digit to a byte. *)
Fixpoint pack_rest (l : list bool) : string :=
  match l with
  | [] => EmptyString
  | b :: l =>
      String (Ascii.Ascii b false false false false false false false)
        (pack_rest l)
  end.

Fixpoint pack (l : list bool) : string :=
  match l with
  | b0 :: b1 :: b2 :: b3 :: b4 :: b5 :: b6 :: rest =>
      String (Ascii.Ascii b0 b1 b2 b3 b4 b5 b6 true) (pack rest)
  | _ => pack_rest l
  end.

Fixpoint unpack (s : string) : list bool :=
  match s with
  | EmptyString => []
  | String (Ascii.Ascii b0 b1 b2 b3 b4 b5 b6 b7) s =>
      if b7 then b0 :: b1 :: b2 :: b3 :: b4 :: b5 :: b6 :: unpack s
      else b0 :: unpack s
  end.

Definition example_library : Library :=
  {| json_dumps users := pack (bits (encode users));
     json_loads content := decode (of_bits (unpack content));
     sha256_hexdigest password := "#" +:+ password |}.

End ExampleLibrary.

(** The file system an operation on the user store leaves behind. *)
Definition after (result : option (bool * string * FileSystem))
  : FileSystem :=
  default example_fs (snd <$> result).

(** The file system after the first import of [auth.py]. *)
Definition default_users_fs : FileSystem :=
  default example_fs (Auth.init (lib := ExampleLibrary.example_library) example_fs).

Definition example_config : Series :=
  <["enabled" := VBool true]>
  (<["sender_email" := VStr "grid@example.org"]> EmailConfig.default_config).

(** * Properties *)

(** ** List plumbing *)

Lemma zip_fmap_diag {A B C} (f : A → B) (g : A → C) (l : list A) :
  zip (f <$> l) (g <$> l) = (λ x, (f x, g x)) <$> l.
Proof. induction l as [|x l IH]; simpl; [done | by f_equal]. Qed.

Lemma zip_with_fmap_diag {A B C D} (h : B → C → D) (f : A → B) (g : A → C)
    (l : list A) :
  zip_with h (f <$> l) (g <$> l) = (λ x, h (f x) (g x)) <$> l.
Proof. induction l as [|x l IH]; simpl; [done | by f_equal]. Qed.

Lemma filter_fmap_snd {A K B} (f : A → K) (g : A → B) (P : K → bool)
    (l : list A) :
  snd <$> filter (λ kv : K * B, P kv.1) ((λ x, (f x, g x)) <$> l)
  = g <$> filter (λ x, P (f x)) l.
Proof.
  induction l as [|x l IH]; [done |].
  rewrite fmap_cons, !filter_cons. cbn [fst].
  case_decide; [|done].
  rewrite !fmap_cons. cbn [snd]. by rewrite IH.
Qed.

Lemma mapM_default {A B} (f : A → option B) (d : B) (l : list A)
    (k : list B) :
  mapM f l = Some k → k = (λ x, default d (f x)) <$> l.
Proof.
  intros H. apply mapM_Some_1 in H.
  induction H as [|x y l k Hxy _ IH]; [done|].
  rewrite fmap_cons, Hxy. simpl. by f_equal.
Qed.

(** ** Columns *)

Lemma column_Some df label l :
  column df label = Some l →
  in_columns df label = true ∧ l = (λ row, cell row label) <$> rows df.
Proof. unfold column. destruct (in_columns df label); naive_solver. Qed.

Lemma float_column_Some df label l :
  float_column df label = Some l →
  in_columns df label = true
  ∧ l = (λ row, default NaN (to_float (cell row label))) <$> rows df
  ∧ Forall (λ row, is_Some (to_float (cell row label))) (rows df).
Proof.
  unfold float_column. intros H.
  destruct (column df label) as [cells|] eqn:Hc; [|done]. simpl in H.
  apply column_Some in Hc as [Hin ->]. split; [done|]. split.
  - apply (mapM_default _ NaN) in H. by rewrite <- list_fmap_compose in H.
  - apply mapM_Some_1 in H. apply Forall_forall. intros row Hrow.
    apply list_elem_of_lookup in Hrow as [i Hi].
    destruct (Forall2_lookup_l _ _ _ i (cell row label) H) as (y & _ & Hy); [|by eexists].
    by rewrite list_lookup_fmap, Hi.
Qed.

Lemma add_column_elem label c cols :
  c ∈ add_column label cols ↔ c = label ∨ c ∈ cols.
Proof.
  unfold add_column. case_bool_decide as Hin.
  - split; [by right | intros [-> | ?]; done].
  - rewrite elem_of_app, list_elem_of_singleton. tauto.
Qed.

Lemma add_column_present label cols :
  label ∈ cols → add_column label cols = cols.
Proof. unfold add_column. by case_bool_decide. Qed.

Lemma add_column_idemp label cols :
  add_column label (add_column label cols) = add_column label cols.
Proof. apply add_column_present, add_column_elem. by left. Qed.

(** ** The aggregator, row by row *)

Lemma transform_mean_rows (df : DataFrame) :
  transform_mean ((λ row, cell row "meter_id") <$> rows df)
                 (power_of <$> rows df)
  = meter_mean_power df <$> rows df.
Proof.
  unfold transform_mean. rewrite zip_fmap_diag.
  rewrite <- list_fmap_compose. apply list_fmap_ext. intros i row _. simpl.
  unfold meter_mean_power. destruct (isna _); [done|].
  by rewrite (filter_fmap_snd _ _ (λ k', py_eq k' (cell row "meter_id"))).
Qed.

Lemma transform_high_load_mean_rows (df : DataFrame) :
  transform_high_load_mean (group_key <$> rows df) (high_load df <$> rows df)
  = overload_pct df <$> rows df.
Proof.
  unfold transform_high_load_mean. rewrite zip_fmap_diag.
  rewrite <- list_fmap_compose. apply list_fmap_ext. intros i row _. simpl.
  unfold overload_pct. destruct (_ || _); [done|].
  by rewrite (filter_fmap_snd _ _ (λ k', same_group k' (group_key row))).
Qed.

Lemma loc_set_rows {A} (m : A → bool) (v : A → value) (h : A → Series)
    label (l : list A) :
  zip_with (λ (mv : bool * value) row,
              if mv.1 then <[label := mv.2]> row else row)
    (zip (m <$> l) (v <$> l)) (h <$> l)
  = (λ x, if m x then <[label := v x]> (h x) else h x) <$> l.
Proof. induction l as [|x l IH]; simpl; [done | by f_equal]. Qed.

Lemma loc_set_rows_id (m : Series → bool) (v : Series → value)
    label (l : list Series) :
  zip_with (λ (mv : bool * value) row,
              if mv.1 then <[label := mv.2]> row else row)
    (zip (m <$> l) (v <$> l)) l
  = (λ x, if m x then <[label := v x]> x else x) <$> l.
Proof. induction l as [|x l IH]; simpl; [done | by f_equal]. Qed.

Lemma check_transformer_overload_Some df threshold out :
  in_columns df "transformer_id" = true →
  check_transformer_overload df threshold = Some out →
  out = {| columns := add_decision_columns (columns df);
           rows := override_if threshold df <$> rows df |}
  ∧ in_columns df "timestamp" = true
  ∧ in_columns df "power" = true
  ∧ in_columns df "meter_id" = true
  ∧ Forall (λ row, is_Some (to_float (cell row "power"))) (rows df).
Proof.
  intros Htid H. unfold check_transformer_overload in H.
  rewrite Htid in H. simpl in H.
  destruct (column df "transformer_id") as [tid|] eqn:H1; [|done].
  destruct (column df "timestamp") as [ts|] eqn:H2; [|done].
  destruct (float_column df "power") as [power|] eqn:H3; [|done].
  destruct (column df "meter_id") as [mid|] eqn:H4; [|done].
  simpl in H.
  apply column_Some in H1 as [_ ->]. apply column_Some in H2 as [? ->].
  apply float_column_Some in H3 as (? & -> & ?).
  apply column_Some in H4 as [? ->].
  split_and!; try done.
  injection H as <-. unfold loc_set. simpl. f_equal.
  change (λ row, default NaN (to_float (cell row "power"))) with power_of.
  rewrite transform_mean_rows.
  rewrite (zip_with_fmap_diag (λ p m, gt p (mul m (Fin 1.2))) power_of
             (meter_mean_power df)).
  change (λ x, gt (power_of x) (mul (meter_mean_power df x) (Fin 1.2)))
    with (high_load df).
  rewrite (zip_fmap_diag (λ row, cell row "transformer_id")
             (λ row, cell row "timestamp")).
  change (λ x : Series, (cell x "transformer_id", cell x "timestamp"))
    with group_key.
  rewrite transform_high_load_mean_rows.
  rewrite <- !list_fmap_compose.
  rewrite (loc_set_rows_id _ _ "pattern").
  rewrite (loc_set_rows _ _ _ "risk_score"), (loc_set_rows _ _ _ "explanation").
  apply list_fmap_ext. intros i row _. simpl.
  unfold override_if, override. by destruct (gt _ _).
Qed.

Lemma check_transformer_overload_no_column df threshold :
  in_columns df "transformer_id" = false →
  check_transformer_overload df threshold = Some df.
Proof. intros H. unfold check_transformer_overload. by rewrite H. Qed.

Lemma float_column_is_Some df label :
  in_columns df label = true →
  Forall (λ row, is_Some (to_float (cell row label))) (rows df) →
  is_Some (float_column df label).
Proof.
  intros Hin Hnum. unfold float_column, column. rewrite Hin. simpl.
  apply mapM_is_Some_2. by apply Forall_fmap.
Qed.

Lemma check_transformer_overload_is_Some df threshold :
  in_columns df "timestamp" = true →
  in_columns df "power" = true →
  in_columns df "meter_id" = true →
  Forall (λ row, is_Some (to_float (cell row "power"))) (rows df) →
  is_Some (check_transformer_overload df threshold).
Proof.
  intros Hts Hp Hm Hnum. unfold check_transformer_overload.
  destruct (in_columns df "transformer_id") eqn:Htid; simpl; [|by eexists].
  destruct (float_column_is_Some df "power" Hp Hnum) as [power Hpower].
  unfold column. rewrite Htid, Hts, Hm. simpl. rewrite Hpower. simpl.
  by eexists.
Qed.

(** *** Cells the aggregator does not write *)

(** Closed membership goals over concrete labels. *)
Ltac by_labels :=
  first [ apply (bool_decide_unpack _); vm_compute; exact I ].

Lemma override_lookup_ne pct row c :
  c ∉ decision_columns → override pct row !! c = row !! c.
Proof.
  intros Hc. unfold override.
  assert (c ≠ "pattern" ∧ c ≠ "risk_score" ∧ c ≠ "explanation")
    as (? & ? & ?).
  { split_and!; intros ->; apply Hc; by_labels. }
  by rewrite !lookup_insert_ne by done.
Qed.

Lemma override_if_lookup_ne threshold df row c :
  c ∉ decision_columns → override_if threshold df row !! c = row !! c.
Proof.
  intros Hc. unfold override_if. destruct (gt _ _); [|done].
  by apply override_lookup_ne.
Qed.

Lemma override_if_cell_ne threshold df row c :
  c ∉ decision_columns →
  cell (override_if threshold df row) c = cell row c.
Proof. intros Hc. unfold cell. by rewrite override_if_lookup_ne. Qed.

Lemma override_override pct row :
  override pct (override pct row) = override pct row.
Proof.
  apply map_eq. intros c. unfold override.
  destruct (decide (c = "explanation")) as [->|];
    [by rewrite !lookup_insert_eq|].
  rewrite (lookup_insert_ne _ "explanation") by done.
  destruct (decide (c = "risk_score")) as [->|].
  { rewrite lookup_insert_eq. rewrite (lookup_insert_ne _ "explanation") by done.
    by rewrite lookup_insert_eq. }
  rewrite (lookup_insert_ne _ "risk_score") by done.
  destruct (decide (c = "pattern")) as [->|].
  { rewrite lookup_insert_eq. rewrite !lookup_insert_ne by done.
    by rewrite lookup_insert_eq. }
  by rewrite !lookup_insert_ne by done.
Qed.

(** *** A second pass sees the same groups *)

Section same_inputs.
Context (g : Series → Series).
Context (Hg : ∀ row c, c ∉ decision_columns → cell (g row) c = cell row c).

Local Lemma g_power row : power_of (g row) = power_of row.
Proof. unfold power_of. rewrite Hg; [done|]. by_labels. Qed.

Local Lemma g_meter row : cell (g row) "meter_id" = cell row "meter_id".
Proof. apply Hg. by_labels. Qed.

Local Lemma g_group_key row : group_key (g row) = group_key row.
Proof.
  unfold group_key.
  rewrite !Hg; [done | |]; by_labels.
Qed.

Lemma filter_fmap_pred {A B} (f : A → B) (P : B → bool) (Q : A → bool)
    (l : list A) :
  (∀ x, P (f x) = Q x) →
  filter (λ y, P y) (f <$> l) = f <$> filter (λ x, Q x) l.
Proof.
  intros HPQ. induction l as [|x l IH]; [done|].
  rewrite fmap_cons, !filter_cons, HPQ.
  case_decide; [|done]. by rewrite fmap_cons, IH.
Qed.

Lemma meter_mean_power_same df df' row :
  rows df' = g <$> rows df →
  meter_mean_power df' (g row) = meter_mean_power df row.
Proof.
  intros Hrows. unfold meter_mean_power. rewrite g_meter, Hrows.
  destruct (isna _); [done|]. f_equal.
  rewrite (filter_fmap_pred g (λ r, py_eq (cell r "meter_id") (cell row "meter_id"))
             (λ r, py_eq (cell r "meter_id") (cell row "meter_id")))
    by (intros; by rewrite g_meter).
  rewrite <- list_fmap_compose. apply list_fmap_ext. intros ? r _. simpl.
  apply g_power.
Qed.

Lemma high_load_same df df' row :
  rows df' = g <$> rows df →
  high_load df' (g row) = high_load df row.
Proof.
  intros Hrows. unfold high_load.
  by rewrite g_power, (meter_mean_power_same df df').
Qed.

Lemma overload_pct_same df df' row :
  rows df' = g <$> rows df →
  overload_pct df' (g row) = overload_pct df row.
Proof.
  intros Hrows. unfold overload_pct, group_of.
  rewrite g_group_key, Hrows. destruct (_ || _); [done|]. do 2 f_equal.
  rewrite (filter_fmap_pred g (λ r, same_group (group_key r) (group_key row))
             (λ r, same_group (group_key r) (group_key row)))
    by (intros; by rewrite g_group_key).
  rewrite <- list_fmap_compose. apply list_fmap_ext. intros ? r _. simpl.
  by apply high_load_same.
Qed.
End same_inputs.

Lemma add_decision_columns_elem c cols :
  c ∈ add_decision_columns cols ↔ c ∈ decision_columns ∨ c ∈ cols.
Proof.
  unfold add_decision_columns, decision_columns.
  rewrite !add_column_elem, !elem_of_cons, elem_of_nil. tauto.
Qed.

Lemma in_columns_add_decision_columns df c :
  in_columns df c = true →
  bool_decide (c ∈ add_decision_columns (columns df)) = true.
Proof.
  unfold in_columns. rewrite !bool_decide_eq_true, add_decision_columns_elem.
  tauto.
Qed.

Lemma add_decision_columns_idemp cols :
  add_decision_columns (add_decision_columns cols) = add_decision_columns cols.
Proof.
  unfold add_decision_columns.
  rewrite (add_column_present "pattern") by (rewrite !add_column_elem; tauto).
  rewrite (add_column_present "risk_score") by (rewrite !add_column_elem; tauto).
  rewrite (add_column_present "explanation") by (rewrite !add_column_elem; tauto).
  done.
Qed.

(** Claim C9. The aggregator writes at most the cells [pattern],
    [risk_score] and [explanation], and only in rows whose group is
    overloaded: the row count is the same, the rows stand where they
    stood, every other column of the frame and every other cell of every
    row is as before; a row whose [transformer_id] is missing is returned
    as it came, and so is the whole frame when it has no such column. *)
Theorem check_transformer_overload_frame df threshold out :
  check_transformer_overload df threshold = Some out →
  length (rows out) = length (rows df)
  ∧ (∀ c, c ∉ decision_columns → c ∈ columns out ↔ c ∈ columns df)
  ∧ (∀ i row, rows df !! i = Some row →
       ∃ row', rows out !! i = Some row'
         ∧ (∀ c, c ∉ decision_columns → row' !! c = row !! c)
         ∧ (isna (cell row "transformer_id") = true → row' = row)
         ∧ (gt (overload_pct df row) threshold = false → row' = row))
  ∧ (in_columns df "transformer_id" = false → out = df).
Proof.
  intros H. destruct (in_columns df "transformer_id") eqn:Htid.
  - apply check_transformer_overload_Some in H as (-> & _); [|done]. simpl.
    split_and!.
    + by rewrite length_fmap.
    + intros c Hc. rewrite add_decision_columns_elem. tauto.
    + intros i row Hi. exists (override_if threshold df row).
      rewrite list_lookup_fmap, Hi. split_and!; [done | | |].
      * intros c Hc. by apply override_if_lookup_ne.
      * intros Hna. unfold override_if, overload_pct, group_key. simpl.
        rewrite Hna. simpl. by destruct threshold.
      * intros Hgt. unfold override_if. by rewrite Hgt.
    + done.
  - rewrite check_transformer_overload_no_column in H by done.
    injection H as <-. split_and!; try done.
    intros i row Hi. exists row. by split_and!.
Qed.

Lemma check_transformer_overload_frame_witness :
  length (rows overload_example_result) = length (rows overload_example)
  ∧ (∀ c, c ∉ decision_columns →
       c ∈ columns overload_example_result ↔ c ∈ columns overload_example)
  ∧ (∀ i row, rows overload_example !! i = Some row →
       ∃ row', rows overload_example_result !! i = Some row'
         ∧ (∀ c, c ∉ decision_columns → row' !! c = row !! c)
         ∧ (isna (cell row "transformer_id") = true → row' = row)
         ∧ (gt (overload_pct overload_example row) default_threshold = false →
            row' = row))
  ∧ (in_columns overload_example "transformer_id" = false →
     overload_example_result = overload_example).
Proof.
  apply (check_transformer_overload_frame overload_example default_threshold).
  vm_compute. reflexivity.
Defined.

(** Claim C7. The aggregator is idempotent: run on its own result it
    returns that result again. *)
Theorem check_transformer_overload_idempotent df threshold out :
  check_transformer_overload df threshold = Some out →
  check_transformer_overload out threshold = Some out.
Proof.
  intros H. destruct (in_columns df "transformer_id") eqn:Htid.
  - apply check_transformer_overload_Some in H
      as (-> & Hts & Hp & Hm & Hnum); [|done].
    set (out := {| columns := _; rows := _ |}).
    assert (Hrows : rows out = override_if threshold df <$> rows df) by done.
    assert (Hcell : ∀ row c, c ∉ decision_columns →
              cell (override_if threshold df row) c = cell row c)
      by (intros; by apply override_if_cell_ne).
    destruct (check_transformer_overload_is_Some out threshold)
      as [out' Hout'].
    { by apply in_columns_add_decision_columns. }
    { by apply in_columns_add_decision_columns. }
    { by apply in_columns_add_decision_columns. }
    { rewrite Hrows. apply Forall_fmap. eapply Forall_impl; [exact Hnum|].
      intros row Hrow. simpl. rewrite Hcell; [done | by_labels]. }
    rewrite Hout'.
    apply check_transformer_overload_Some in Hout' as (-> & _);
      [| by apply in_columns_add_decision_columns].
    f_equal. change out with {| columns := columns out; rows := rows out |} at 3.
    f_equal.
    + apply add_decision_columns_idemp.
    + rewrite Hrows. cbn [rows]. rewrite <- list_fmap_compose.
      apply list_fmap_ext.
      intros i row _. simpl. unfold override_if at 1.
      rewrite (overload_pct_same _ Hcell df out) by done.
      unfold override_if. destruct (gt _ _); [|done].
      apply override_override.
  - rewrite check_transformer_overload_no_column in H by done.
    injection H as <-. by apply check_transformer_overload_no_column.
Qed.

Lemma check_transformer_overload_idempotent_witness :
  check_transformer_overload overload_example default_threshold
  = Some overload_example_result
  ∧ check_transformer_overload overload_example_result default_threshold
    = Some overload_example_result.
Proof.
  assert (H : check_transformer_overload overload_example default_threshold
              = Some overload_example_result) by (vm_compute; reflexivity).
  split; [exact H|].
  exact (check_transformer_overload_idempotent overload_example
           default_threshold overload_example_result H).
Defined.

(** *** The fraction as a quotient of two counts *)

Lemma finite_bool_float (bs : list bool) :
  finite (bool_float <$> bs) = (λ b : bool, if b then 1 else 0)%Q <$> bs.
Proof. induction bs as [|b bs IH]; [done|]. unfold finite in *. simpl. by f_equal. Qed.

Lemma Qsum_indicator (bs : list bool) :
  Qsum ((λ b : bool, if b then 1 else 0)%Q <$> bs)
  == inject_Z (Z.of_nat (length (filter Is_true bs))).
Proof.
  induction bs as [|b bs IH]; [done|].
  rewrite fmap_cons, filter_cons. unfold Qsum in *. simpl foldr. rewrite IH.
  destruct b; simpl.
  - rewrite Nat2Z.inj_succ, <- Z.add_1_l, inject_Z_plus. reflexivity.
  - apply Qplus_0_l.
Qed.

Lemma mean_bool_float (bs : list bool) :
  bs ≠ [] →
  ∃ q, mean (bool_float <$> bs) = Fin q
       ∧ q == (Z.of_nat (length (filter Is_true bs))
               # Z.to_pos (Z.of_nat (length bs))).
Proof.
  intros Hne. unfold mean. rewrite finite_bool_float.
  destruct bs as [|b bs]; [done|].
  set (l := b :: bs).
  exists (Qsum ((λ b : bool, if b then 1 else 0)%Q <$> l)
          / inject_Z (Z.of_nat (length ((λ b : bool, if b then 1 else 0)%Q <$> l))))%Q.
  split; [done|].
  rewrite (Qsum_indicator l), length_fmap.
  rewrite Qmake_Qdiv. rewrite Z2Pos.id by (unfold l; simpl; lia). reflexivity.
Qed.

Lemma Qlt_bool_iff x y : Qlt_bool x y = true ↔ (x < y)%Q.
Proof.
  unfold Qlt_bool. rewrite negb_true_iff, <- not_true_iff_false, Qle_bool_iff.
  split; [apply Qnot_le_lt | apply Qlt_not_le].
Qed.







Lemma override_pattern pct row :
  override pct row !! "pattern" = Some (VStr "transformer_overload").
Proof. unfold override. by rewrite !lookup_insert_ne, lookup_insert_eq by done. Qed.

Lemma override_risk_score pct row :
  override pct row !! "risk_score" = Some (VFloat (Fin 0.85)).
Proof. unfold override. by rewrite lookup_insert_ne, lookup_insert_eq by done. Qed.

Lemma override_explanation pct row :
  override pct row !! "explanation" = Some (overload_explanation pct).
Proof. unfold override. by rewrite lookup_insert_eq. Qed.



(** ** The row-level classifier *)

Lemma contains_true row label :
  contains row label = true ↔ is_Some (row !! label).
Proof.
  unfold contains. destruct (row !! label) as [v|].
  - split; [by eexists | done].
  - split; [done | by intros [? ?]].
Qed.


Lemma theft_signature_verdict row stats a v :
  theft_signature row stats a = Some (Some v) →
  ∃ voltage voltage_mean current current_mean,
    num row "voltage" = Some voltage
    ∧ num stats "voltage_mean" = Some voltage_mean
    ∧ num row "current" = Some current
    ∧ num stats "current_mean" = Some current_mean
    ∧ lt voltage (mul (Fin 0.85) voltage_mean) = true
    ∧ gt current (mul (Fin 1.3) current_mean) = true
    ∧ v = ("theft", if a then Fin 0.9 else Fin 0.6,
           signature_explanation voltage voltage_mean current current_mean).
Proof.
  unfold theft_signature. intros H.
  destruct (contains row "voltage" && contains row "current"); [|done].
  destruct (num row "voltage") as [voltage|]; [|done].
  destruct (num stats "voltage_mean") as [voltage_mean|]; [|done].
  destruct (num row "current") as [current|]; [|done].
  destruct (num stats "current_mean") as [current_mean|]; [|done].
  simpl in H.
  destruct (lt voltage _) eqn:Hv; [|done].
  destruct (gt current _) eqn:Hc; [|done].
  simpl in H. injection H as <-.
  by exists voltage, voltage_mean, current, current_mean.
Qed.

Lemma power_spike_verdict row stats a v :
  power_spike row stats a = Some (Some v) →
  ∃ power z_score,
    v = ("fault", if a then Fin 0.7 else Fin 0.4,
         spike_explanation power z_score).
Proof.
  unfold power_spike. intros H.
  destruct (contains row "power"); [|done].
  destruct (num row "power") as [power|]; [|done].
  destruct (num stats "power_mean") as [power_mean|]; [|done].
  destruct (num stats "power_std") as [power_std|]; [|done].
  simpl in H. destruct (gt _ _); [|done].
  injection H as <-. by eexists _, _.
Qed.

Lemma consumption_suppression_verdict row a v :
  consumption_suppression row a = Some (Some v) →
  ∃ power_ratio power rolling_avg_power,
    v = ("theft", if a then Fin 0.8 else Fin 0.5,
         suppression_explanation power_ratio power rolling_avg_power).
Proof.
  unfold consumption_suppression. intros H.
  destruct (contains row "power" && contains row "rolling_avg_power"); [|done].
  destruct (num row "power") as [power|]; [|done].
  destruct (num row "rolling_avg_power") as [rolling|]; [|done].
  simpl in H. destruct (lt _ _); [|done].
  injection H as <-. by eexists _, _, _.
Qed.

Lemma detect_pattern_verdict row grouped_stats v :
  detect_pattern row grouped_stats = Some v → verdict_of (flagged row) v.
Proof.
  unfold detect_pattern. fold (flagged row). intros H.
  destruct (row !! "meter_id") as [meter_id|]; [|done]. simpl in H.
  destruct (loc grouped_stats meter_id) as [stats|]; [|done]. simpl in H.
  destruct (theft_signature row stats (flagged row)) as [[v1|]|] eqn:H1;
    [| |done]; simpl in H.
  { injection H as <-.
    apply theft_signature_verdict in H1 as (? & ? & ? & ? & _ & _ & _ & _ & _ & _ & ->).
    constructor. }
  destruct (power_spike row stats (flagged row)) as [[v2|]|] eqn:H2;
    [| |done]; simpl in H.
  { injection H as <-. apply power_spike_verdict in H2 as (? & ? & ->).
    constructor. }
  destruct (consumption_suppression row (flagged row)) as [[v3|]|] eqn:H3;
    [| |done]; simpl in H.
  { injection H as <-.
    apply consumption_suppression_verdict in H3 as (? & ? & ? & ->).
    constructor. }
  unfold anomaly_or_normal in H. destruct (flagged row) eqn:Ha.
  - destruct (to_float _) as [score|]; [|done]. injection H as <-.
    by constructor.
  - injection H as <-. by constructor.
Qed.

(** Claim C3. A reading that shows the theft signature (voltage below
    0.85 times the baseline mean voltage, current above 1.30 times the
    baseline mean current) and also the power spike (z-score beyond 3.0
    in magnitude) is classified [theft]: rule 1 returns before rule 2 is
    looked at, although rule 2 on its own would answer [fault]. *)
Theorem theft_precedes_fault row grouped_stats meter_id stats
    voltage voltage_mean current current_mean power power_mean power_std :
  row !! "meter_id" = Some meter_id →
  loc grouped_stats meter_id = Some stats →
  num row "voltage" = Some voltage →
  num stats "voltage_mean" = Some voltage_mean →
  num row "current" = Some current →
  num stats "current_mean" = Some current_mean →
  num row "power" = Some power →
  num stats "power_mean" = Some power_mean →
  num stats "power_std" = Some power_std →
  lt voltage (mul (Fin 0.85) voltage_mean) = true →
  gt current (mul (Fin 1.3) current_mean) = true →
  gt (abs (div (sub power power_mean) (max power_std (Fin 0.001)))) (Fin 3.0)
    = true →
  ∃ risk explanation,
    detect_pattern row grouped_stats = Some ("theft", risk, explanation)
    ∧ power_spike row stats (flagged row)
      = Some (Some ("fault", if flagged row then Fin 0.7 else Fin 0.4,
                    spike_explanation power
                      (div (sub power power_mean) (max power_std (Fin 0.001))))).
Proof.
  intros Hm Hs Hv Hvm Hc Hcm Hp Hpm Hps Hdrop Hhigh Hspike.
  assert (Hcv : contains row "voltage" = true).
  { apply contains_true. unfold num in Hv. destruct (row !! "voltage"); [by eexists|done]. }
  assert (Hcc : contains row "current" = true).
  { apply contains_true. unfold num in Hc. destruct (row !! "current"); [by eexists|done]. }
  assert (Hcp : contains row "power" = true).
  { apply contains_true. unfold num in Hp. destruct (row !! "power"); [by eexists|done]. }
  eexists _, _. split.
  - unfold detect_pattern. rewrite Hm. simpl. rewrite Hs. simpl.
    unfold theft_signature. rewrite Hcv, Hcc, Hv, Hvm, Hc, Hcm. simpl.
    rewrite Hdrop, Hhigh. simpl. reflexivity.
  - unfold power_spike. rewrite Hcp, Hp, Hpm, Hps. simpl. by rewrite Hspike.
Qed.

Lemma theft_precedes_fault_witness :
  ∃ risk explanation,
    detect_pattern scenario_row [(VStr "M1", scenario_stats)]
    = Some ("theft", risk, explanation)
    ∧ power_spike scenario_row scenario_stats (flagged scenario_row)
      = Some (Some ("fault", Fin 0.4,
                    "Power spike detected: 9.2kW (z-score: 4.20)")).
Proof.
  apply (theft_precedes_fault scenario_row [(VStr "M1", scenario_stats)]
           (VStr "M1") scenario_stats
           (Fin 190) (Fin 230) (Fin 14) (Fin 10) (Fin 9.2) (Fin 5) (Fin 1));
    vm_compute; reflexivity.
Defined.



(** ** Sorting *)

Lemma Qle_bool_total x y : Qle_bool x y = true ∨ Qle_bool y x = true.
Proof.
  rewrite !Qle_bool_iff.
  destruct (Qlt_le_dec x y) as [Hlt|Hle]; [left | by right].
  by apply Qlt_le_weak.
Qed.

Lemma in_order_total ascending a b :
  in_order ascending a b = true ∨ in_order ascending b a = true.
Proof.
  destruct a as [|x], b as [|y]; simpl; auto.
  destruct ascending; [apply Qle_bool_total|].
  destruct (Qle_bool_total x y); auto.
Qed.

Lemma in_order_trans ascending a b c :
  in_order ascending a b = true → in_order ascending b c = true →
  in_order ascending a c = true.
Proof.
  destruct a as [|x], b as [|y], c as [|z]; simpl; try done.
  destruct ascending; rewrite !Qle_bool_iff; intros; by eapply Qle_trans.
Qed.

#[local] Instance row_order_total label ascending :
  Total (row_order label ascending).
Proof.
  intros r1 r2. unfold row_order.
  destruct (in_order_total ascending (sort_key label r1) (sort_key label r2))
    as [-> | ->]; [by left | by right].
Qed.

#[local] Instance row_order_trans label ascending :
  Transitive (row_order label ascending).
Proof.
  intros r1 r2 r3. unfold row_order. intros H1 H2.
  apply Is_true_true in H1, H2. apply Is_true_true.
  by eapply in_order_trans.
Qed.

Lemma StronglySorted_lookup {A} (R : relation A) (l : list A) i j x y :
  StronglySorted R l → (i < j)%nat → l !! i = Some x → l !! j = Some y →
  R x y.
Proof.
  intros Hl. revert i j. induction Hl as [|a l Hl IH Hall]; intros i j Hij Hi Hj.
  - done.
  - destruct j as [|j]; [lia|]. simpl in Hj. destruct i as [|i].
    + simpl in Hi. injection Hi as <-.
      rewrite Forall_forall in Hall. apply Hall.
      by eapply list_elem_of_lookup_2.
    + simpl in Hi. eapply IH; [|done..]. lia.
Qed.

Lemma merge_sort_values_spec :
  sort_values_spec (ext := example_externals).
Proof.
  intros label ascending df out H. simpl in H. unfold merge_sort_values in H.
  destruct (in_columns df label); [|done]. injection H as <-. simpl.
  split_and!; [done | |].
  - apply merge_sort_Permutation.
  - apply (Sorted_merge_sort _).
Qed.



Section engine.
Context {ext : Externals}.


Lemma series_view_lookup cols row label :
  series_view cols row !! label
  = if bool_decide (label ∈ cols) then Some (cell row label) else None.
Proof.
  unfold series_view. induction cols as [|c cols IH].
  - by rewrite fmap_nil, list_to_map_nil, lookup_empty.
  - rewrite fmap_cons, list_to_map_cons. simpl fst. simpl snd.
    destruct (decide (c = label)) as [->|Hne].
    + rewrite lookup_insert_eq. rewrite bool_decide_eq_true_2; [done|]. by left.
    + rewrite lookup_insert_ne by done. rewrite IH.
      rewrite (bool_decide_ext (label ∈ c :: cols) (label ∈ cols)); [done|].
      rewrite elem_of_cons. split; [by intros [->|?] | by right].
Qed.

Lemma set_column_Some label vals df out :
  set_column label vals df = Some out →
  length vals = length (rows df)
  ∧ out = {| columns := add_column label (columns df);
             rows := zip_with (λ v row, <[label := v]> row) vals (rows df) |}.
Proof. unfold set_column. case_bool_decide; naive_solver. Qed.

Lemma set_column_fmap {A} (f : A → value) label (l : list A) df out :
  set_column label (f <$> l) df = Some out →
  length l = length (rows df)
  ∧ columns out = add_column label (columns df)
  ∧ rows out = zip_with (λ x row, <[label := f x]> row) l (rows df).
Proof.
  intros H. apply set_column_Some in H as [Hlen ->].
  rewrite length_fmap in Hlen. split_and!; [done | done |]. simpl.
  by rewrite zip_with_fmap_l.
Qed.

Lemma zip_with_zip_with_same {A B} (f g : A → B → B) (l : list A)
    (k : list B) :
  zip_with f l (zip_with g l k) = zip_with (λ x y, f x (g x y)) l k.
Proof.
  revert k. induction l as [|x l IH]; intros [|y k]; simpl; [done..|].
  by f_equal.
Qed.

Lemma analyze_patterns_Some processed model out :
  analyze_patterns processed model = Some out →
  ∃ df patterns,
    attach_verdicts processed model = Some df
    ∧ Forall2 (λ row v,
                 detect_pattern (series_view (columns df) row) (baselines df)
                 = Some v)
        (rows df) patterns
    ∧ check_transformer_overload
        {| columns := add_decision_columns (columns df);
           rows := zip_with with_verdict patterns (rows df) |}
        default_threshold
      = Some out.
Proof.
  unfold analyze_patterns. intros H.
  destruct (attach_verdicts processed model) as [df|]; [|done]. simpl in H.
  destruct (column df "meter_id") as [meter_id|] eqn:Hm; [|done].
  destruct (float_column df "voltage") as [voltage|] eqn:Hv; [|done].
  destruct (float_column df "current") as [current|] eqn:Hc; [|done].
  destruct (float_column df "power") as [power|] eqn:Hp; [|done].
  simpl in H.
  apply column_Some in Hm as [_ ->].
  apply float_column_Some in Hv as (_ & -> & _).
  apply float_column_Some in Hc as (_ & -> & _).
  apply float_column_Some in Hp as (_ & -> & _).
  fold (baselines df) in H.
  destruct (mapM _ (iterrows df)) as [patterns|] eqn:Hpat; [|done].
  simpl in H.
  destruct (set_column "pattern" _ df) as [df1|] eqn:H1; [|done].
  simpl in H.
  destruct (set_column "risk_score" _ df1) as [df2|] eqn:H2; [|done].
  simpl in H.
  destruct (set_column "explanation" _ df2) as [df3|] eqn:H3; [|done].
  simpl in H.
  apply set_column_fmap in H1 as (Hlen & Hc1 & Hr1).
  apply set_column_fmap in H2 as (_ & Hc2 & Hr2).
  apply set_column_fmap in H3 as (_ & Hc3 & Hr3).
  exists df, patterns. split_and!; [done | |].
  - apply mapM_Some_1 in Hpat. unfold iterrows in Hpat.
    by apply Forall2_fmap_l in Hpat.
  - rewrite <- H. f_equal. destruct df3 as [cols3 rows3]. simpl in *.
    f_equal.
    + by rewrite Hc3, Hc2, Hc1.
    + rewrite Hr3, Hr2, Hr1. by rewrite !zip_with_zip_with_same.
Qed.

(** Every row of the table of [analyze_patterns] is a row of the input
    with a verdict written into it, possibly overridden afterwards. *)
Lemma analyze_patterns_row processed model out i row_out :
  analyze_patterns processed model = Some out →
  rows out !! i = Some row_out →
  ∃ df row v,
    attach_verdicts processed model = Some df
    ∧ rows df !! i = Some row
    ∧ detect_pattern (series_view (columns df) row) (baselines df) = Some v
    ∧ (row_out = with_verdict v row
       ∨ ∃ pct, row_out = override pct (with_verdict v row)).
Proof.
  intros H Hi. apply analyze_patterns_Some in H as (df & patterns & Hdf & Hpat & H).
  set (df3 := {| columns := _; rows := _ |}) in H.
  assert (Hrow3 : ∃ row3, rows df3 !! i = Some row3
            ∧ (row_out = row3 ∨ ∃ pct, row_out = override pct row3)).
  { destruct (in_columns df3 "transformer_id") eqn:Htid.
    - apply check_transformer_overload_Some in H as (-> & _); [|done].
      simpl in Hi. rewrite list_lookup_fmap in Hi.
      destruct (zip_with with_verdict patterns (rows df) !! i) as [row3|] eqn:H3;
        [|done].
      exists row3. split; [done|]. simpl in Hi. injection Hi as <-.
      unfold override_if. destruct (gt _ _); eauto.
    - rewrite check_transformer_overload_no_column in H by done.
      injection H as <-. eauto. }
  destruct Hrow3 as (row3 & H3 & Hout). simpl in H3.
  apply lookup_zip_with_Some in H3 as (v & row & -> & Hv & Hrow).
  exists df, row, v. split_and!; [done | done | | done].
  by eapply (Forall2_lookup_lr _ _ _ i) in Hpat.
Qed.



Lemma with_verdict_pattern v row :
  with_verdict v row !! "pattern" = Some (VStr v.1.1).
Proof. unfold with_verdict. by rewrite !lookup_insert_ne, lookup_insert_eq by done. Qed.

Lemma with_verdict_risk_score v row :
  with_verdict v row !! "risk_score" = Some (VFloat v.1.2).
Proof. unfold with_verdict. by rewrite lookup_insert_ne, lookup_insert_eq by done. Qed.

Lemma with_verdict_explanation v row :
  with_verdict v row !! "explanation" = Some (VStr v.2).
Proof. unfold with_verdict. by rewrite lookup_insert_eq. Qed.

Lemma with_verdict_lookup_ne v row c :
  c ∉ decision_columns → with_verdict v row !! c = row !! c.
Proof.
  intros Hc. unfold with_verdict.
  assert (c ≠ "pattern" ∧ c ≠ "risk_score" ∧ c ≠ "explanation")
    as (? & ? & ?).
  { split_and!; intros ->; apply Hc; by_labels. }
  by rewrite !lookup_insert_ne by done.
Qed.

(** Claim C2. In the table of [analyze_patterns] (classifier and
    aggregator both run) every row has a risk score between 0 and 1, and
    a row whose pattern is [normal] has risk score 0.0. *)
Theorem risk_score_bounds processed model out row :
  analyze_patterns processed model = Some out →
  row ∈ rows out →
  ∃ q, row !! "risk_score" = Some (VFloat (Fin q))
       ∧ (0 <= q <= 1)%Q
       ∧ (row !! "pattern" = Some (VStr "normal") →
          row !! "risk_score" = Some (VFloat (Fin 0.0))).
Proof.
  intros H Hrow. apply list_elem_of_lookup in Hrow as [i Hi].
  destruct (analyze_patterns_row _ _ _ _ _ H Hi)
    as (df & row0 & v & _ & _ & Hv & Hout).
  apply detect_pattern_verdict in Hv.
  destruct Hout as [-> | [pct ->]].
  - rewrite with_verdict_risk_score, with_verdict_pattern.
    destruct Hv as [? ? ? ?|? ?|? ? ?|? ?|?]; simpl;
      try destruct (flagged _);
      (eexists; split; [reflexivity|]; split; [by split|]);
      intros Hn; simplify_eq; done.
  - rewrite override_risk_score, override_pattern.
    eexists; split; [reflexivity|]; split; [by split|].
    intros Hn; simplify_eq.
Qed.

Lemma attach_verdicts_None processed df i row :
  attach_verdicts processed None = Some df →
  rows df !! i = Some row →
  row !! "prediction" = Some (VInt 1)
  ∧ row !! "anomaly_score" = Some (VFloat (Fin 0.0))
  ∧ flagged (series_view (columns df) row) = false.
Proof.
  intros H Hi. simpl in H. injection H as <-. simpl in *.
  rewrite <- list_fmap_compose, list_lookup_fmap in Hi.
  destruct (rows processed !! i) as [row0|]; [|done].
  injection Hi as <-. simpl.
  rewrite lookup_insert_eq, lookup_insert_ne, lookup_insert_eq by done.
  split_and!; [done | done |].
  unfold flagged. rewrite series_view_lookup.
  rewrite bool_decide_eq_true_2.
  - unfold cell. by rewrite lookup_insert_ne, lookup_insert_eq by done.
  - rewrite !add_column_elem. tauto.
Qed.

(** Claim C5. Without a model path, or with a path that does not exist,
    the engine runs with no model. Then every row carries prediction 1
    and anomaly score 0.0, no row is classified [anomaly], and the risk
    is the one of an unflagged row: 0.6 for theft by signature, 0.4 for
    a fault, 0.5 for theft by suppression (0.0 for normal, 0.85 when the
    aggregator overrode the row). *)
Theorem no_model_defaults :
  (∀ fs, choose_model None fs = Some None)
  ∧ (∀ path fs, path_exists path fs = false →
       choose_model (Some path) fs = Some None)
  ∧ (∀ processed out row,
       analyze_patterns processed None = Some out →
       row ∈ rows out →
       row !! "prediction" = Some (VInt 1)
       ∧ row !! "anomaly_score" = Some (VFloat (Fin 0.0))
       ∧ row !! "pattern" ≠ Some (VStr "anomaly")
       ∧ ∃ pattern risk explanation,
           row !! "pattern" = Some (VStr pattern)
           ∧ row !! "risk_score" = Some (VFloat risk)
           ∧ row !! "explanation" = Some (VStr explanation)
           ∧ ((pattern = "theft" ∧ risk = Fin 0.6
               ∧ ∃ voltage voltage_mean current current_mean,
                   explanation
                   = signature_explanation voltage voltage_mean
                       current current_mean)
              ∨ (pattern = "fault" ∧ risk = Fin 0.4
                 ∧ ∃ power z_score,
                     explanation = spike_explanation power z_score)
              ∨ (pattern = "theft" ∧ risk = Fin 0.5
                 ∧ ∃ power_ratio power rolling_avg_power,
                     explanation
                     = suppression_explanation power_ratio power
                         rolling_avg_power)
              ∨ (pattern = "normal" ∧ risk = Fin 0.0
                 ∧ explanation = "Normal operation")
              ∨ (pattern = "transformer_overload" ∧ risk = Fin 0.85
                 ∧ ∃ pct, VStr explanation = overload_explanation pct))).
Proof.
  split_and!.
  - done.
  - intros path fs Hex. unfold choose_model. by rewrite Hex.
  - intros processed out row H Hrow.
    apply list_elem_of_lookup in Hrow as [i Hi].
    destruct (analyze_patterns_row _ _ _ _ _ H Hi)
      as (df & row0 & v & Hdf & Hrow0 & Hv & Hout).
    destruct (attach_verdicts_None _ _ _ _ Hdf Hrow0) as (Hp & Hs & Hflag).
    apply detect_pattern_verdict in Hv. rewrite Hflag in Hv.
    assert (Hkeep : row !! "prediction" = row0 !! "prediction"
                    ∧ row !! "anomaly_score" = row0 !! "anomaly_score").
    { destruct Hout as [-> | [pct ->]];
        rewrite ?override_lookup_ne, !with_verdict_lookup_ne by by_labels;
        done. }
    destruct Hkeep as [-> ->]. split_and!; [done | done | |].
    + destruct Hout as [-> | [pct ->]].
      * rewrite with_verdict_pattern.
        destruct Hv; simpl; try done.
      * by rewrite override_pattern.
    + destruct Hout as [-> | [pct ->]].
      * rewrite with_verdict_pattern, with_verdict_risk_score,
          with_verdict_explanation.
        exists v.1.1, v.1.2, v.2. split_and!; [done..|].
        destruct Hv as [? ? ? ?|? ?|? ? ?|? ?|?]; simpl.
        -- left. eauto 10.
        -- right; left. eauto 10.
        -- do 2 right; left. eauto 10.
        -- done.
        -- do 3 right; left. eauto.
      * rewrite override_pattern, override_risk_score, override_explanation.
        eexists _, _, _. split_and!; [done | done | reflexivity |].
        do 4 right. eauto.
Qed.



Lemma attach_alert_Some decisions out :
  attach_alert decisions = Some out →
  rows out
  = (λ row, <["alert" := VBool (negb (py_eq (cell row "pattern") (VStr "normal")))]> row)
    <$> rows decisions.
Proof.
  unfold attach_alert. intros H.
  destruct (column decisions "pattern") as [pattern|] eqn:Hp; [|done].
  simpl in H. apply column_Some in Hp as [_ ->].
  rewrite <- list_fmap_compose in H.
  apply set_column_fmap in H as (_ & _ & ->).
  rewrite <- (list_fmap_id (rows decisions)) at 2.
  rewrite zip_with_fmap_r, zip_with_diag. done.
Qed.

Lemma run_engine_Some data_path model_path output_path fs out fs' :
  run_engine data_path model_path output_path fs = Some (out, fs') →
  ∃ decisions,
    decide_rows data_path model_path fs = Some decisions
    ∧ sort_values "risk_score" false decisions = Some out.
Proof.
  unfold run_engine. intros H.
  destruct (decide_rows data_path model_path fs) as [decisions|]; [|done].
  simpl in H.
  destruct (sort_values "risk_score" false decisions) as [sorted|] eqn:Hs;
    [|done].
  simpl in H. exists decisions. split; [done|]. f_equal.
  destruct output_path as [output_path|]; [|congruence].
  destruct (mkdir_parents _ fs) as [fs1|]; [|done]. simpl in H.
  destruct (write_file _ _ fs1) as [fs2|]; [|done]. simpl in H.
  congruence.
Qed.

Lemma decide_rows_Some data_path model_path fs decisions :
  decide_rows data_path model_path fs = Some decisions →
  ∃ processed model analyzed,
    choose_model model_path fs = Some model
    ∧ analyze_patterns processed model = Some analyzed
    ∧ attach_alert analyzed = Some decisions.
Proof.
  unfold decide_rows. intros H.
  destruct (load_data data_path fs) as [raw|]; [|done]. simpl in H.
  destruct (preprocess raw) as [processed|]; [|done]. simpl in H.
  destruct (choose_model model_path fs) as [model|]; [|done]. simpl in H.
  destruct (analyze_patterns processed model) as [analyzed|] eqn:Ha; [|done].
  simpl in H. by exists processed, model, analyzed.
Qed.

Lemma analyzed_pattern processed model out row :
  analyze_patterns processed model = Some out →
  row ∈ rows out →
  ∃ p, row !! "pattern" = Some (VStr p) ∧ p ∈ known_patterns.
Proof.
  intros H Hrow. apply list_elem_of_lookup in Hrow as [i Hi].
  destruct (analyze_patterns_row _ _ _ _ _ H Hi)
    as (df & row0 & v & _ & _ & Hv & Hout).
  apply detect_pattern_verdict in Hv.
  destruct Hout as [-> | [pct ->]].
  - rewrite with_verdict_pattern. eexists. split; [done|].
    destruct Hv; simpl; by_labels.
  - rewrite override_pattern. eexists. split; [done|]. by_labels.
Qed.

(** Claim C1. Every row of the table returned by [run_engine] carries
    one pattern, one of the five, and its [alert] cell is true exactly
    when that pattern is not [normal]. *)
Theorem alert_iff_not_normal data_path model_path output_path fs out fs' :
  sort_values_spec →
  run_engine data_path model_path output_path fs = Some (out, fs') →
  ∀ row, row ∈ rows out →
    ∃ p, row !! "pattern" = Some (VStr p)
         ∧ p ∈ known_patterns
         ∧ row !! "alert" = Some (VBool (negb (bool_decide (p = "normal")))).
Proof.
  intros Hsort H row Hrow.
  apply run_engine_Some in H as (decisions & Hdec & Hsorted).
  apply Hsort in Hsorted as (_ & Hperm & _).
  rewrite Hperm in Hrow.
  apply decide_rows_Some in Hdec as (processed & model & analyzed & _ & Ha & Halert).
  apply attach_alert_Some in Halert. rewrite Halert in Hrow.
  apply list_elem_of_fmap in Hrow as (row0 & -> & Hrow0).
  destruct (analyzed_pattern _ _ _ _ Ha Hrow0) as (p & Hp & Hin).
  exists p. rewrite lookup_insert_ne by done. rewrite lookup_insert_eq.
  split_and!; [done | done |].
  unfold cell. rewrite Hp. simpl. done.
Qed.



Lemma analyzed_risk_by_pattern processed model analyzed row :
  analyze_patterns processed model = Some analyzed →
  row ∈ rows analyzed →
  ∃ p q, row !! "pattern" = Some (VStr p)
         ∧ row !! "risk_score" = Some (VFloat (Fin q))
         ∧ if bool_decide (p = "normal") then (q == 0)%Q else (0.4 <= q)%Q.
Proof.
  intros H Hrow. apply list_elem_of_lookup in Hrow as [i Hi].
  destruct (analyze_patterns_row _ _ _ _ _ H Hi)
    as (df & row0 & v & _ & _ & Hv & Hout).
  apply detect_pattern_verdict in Hv.
  destruct Hout as [-> | [pct ->]].
  - rewrite with_verdict_risk_score, with_verdict_pattern.
    destruct Hv as [? ? ? ?|? ?|? ? ?|? ?|?]; simpl;
      try destruct (flagged _);
      (eexists _, _; split_and!; [reflexivity | reflexivity | by vm_compute]).
  - rewrite override_risk_score, override_pattern.
    eexists _, _; split_and!; [reflexivity | reflexivity | by vm_compute].
Qed.



(** Claim C8. A pipeline saved with [save_model] and read back with
    [load_model] from the same path gives, through [predict], the same
    predictions and anomaly scores on the same records. joblib's own
    round trip is taken as given ([joblib_spec]). *)
Theorem save_load_predict (model : Pipeline) path fs fs' records :
  joblib_spec →
  Model.save_model model path fs = Some fs' →
  ∃ model',
    Model.load_model path fs' = Some model'
    ∧ Model.predict model' records = Model.predict model records.
Proof.
  intros Hjoblib Hsave. destruct (Hjoblib model) as (model' & Hload & Hp & Hs).
  exists model'. split.
  - unfold Model.save_model in Hsave.
    destruct (mkdir_parents (parent path) fs) as [fs1|]; [|done].
    simpl in Hsave. unfold write_file in Hsave.
    destruct (_ && _); [|done]. injection Hsave as <-.
    unfold Model.load_model, read_file. simpl.
    by rewrite lookup_insert_eq.
  - unfold Model.predict.
    destruct (preprocess (from_records records)) as [processed|]; [|done].
    simpl. destruct (select _ processed) as [X|]; [|done].
    simpl. by rewrite Hp, Hs.
Qed.


End engine.

(** ** The engine on the example readings *)

Lemma alert_iff_not_normal_witness :
  ∃ p, example_decision_row !! "pattern" = Some (VStr p)
       ∧ p ∈ known_patterns
       ∧ example_decision_row !! "alert"
         = Some (VBool (negb (bool_decide (p = "normal")))).
Proof.
  apply (alert_iff_not_normal (ext := example_externals)
           example_data_path None None example_fs example_decisions example_fs
           merge_sort_values_spec).
  - vm_compute. reflexivity.
  - apply (list_elem_of_lookup_2 _ 0%nat). reflexivity.
Defined.

Lemma risk_score_bounds_witness :
  ∃ q, example_analyzed_row !! "risk_score" = Some (VFloat (Fin q))
       ∧ (0 <= q <= 1)%Q
       ∧ (example_analyzed_row !! "pattern" = Some (VStr "normal") →
          example_analyzed_row !! "risk_score" = Some (VFloat (Fin 0.0))).
Proof.
  apply (risk_score_bounds (ext := example_externals) example_readings None
           example_analyzed).
  - vm_compute. reflexivity.
  - apply (list_elem_of_lookup_2 _ 3%nat). reflexivity.
Defined.

Lemma no_model_defaults_witness :
  example_analyzed_row !! "prediction" = Some (VInt 1)
  ∧ example_analyzed_row !! "anomaly_score" = Some (VFloat (Fin 0.0))
  ∧ example_analyzed_row !! "pattern" ≠ Some (VStr "anomaly")
  ∧ choose_model (ext := example_externals) (Some example_model_path)
      example_fs = Some None.
Proof.
  destruct (no_model_defaults (ext := example_externals))
    as (_ & Hpath & Hrows).
  destruct (Hrows example_readings example_analyzed example_analyzed_row)
    as (Hp & Hs & Hne & _).
  - vm_compute. reflexivity.
  - apply (list_elem_of_lookup_2 _ 3%nat). reflexivity.
  - split_and!; [exact Hp | exact Hs | exact Hne |].
    apply Hpath. vm_compute. reflexivity.
Defined.


Lemma example_joblib_spec : joblib_spec (ext := example_externals).
Proof. intros [|]; [exists true | exists false]; by split_and!. Qed.

Lemma save_load_predict_witness :
  ∃ model',
    Model.load_model (ext := example_externals) example_model_path
      example_saved_fs = Some model'
    ∧ Model.predict model' (rows example_readings)
      = Model.predict (ext := example_externals) true (rows example_readings).
Proof.
  apply (save_load_predict (ext := example_externals) true example_model_path
           example_fs example_saved_fs (rows example_readings)
           example_joblib_spec).
  vm_compute. reflexivity.
Defined.



(** * Further properties *)

(** ** Equality of cells *)

Lemma py_eq_sym v w : py_eq v w = py_eq w v.
Proof.
  destruct v as [[|x]| | |s], w as [[|y]| | |t]; simpl; try done;
    try apply Qeq_bool_comm.
  apply bool_decide_ext. split; congruence.
Qed.

Lemma py_eq_notna v w : py_eq v w = true → isna v = false ∧ isna w = false.
Proof. destruct v as [[|x]| | |s], w as [[|y]| | |t]; simpl; done. Qed.

Lemma py_eq_refl v : isna v = false → py_eq v v = true.
Proof.
  destruct v as [[|x]| | |s]; simpl; intros; try done;
    try apply Qeq_bool_refl.
  by apply bool_decide_eq_true_2.
Qed.

Lemma py_eq_trans u v w :
  py_eq u v = true → py_eq v w = true → py_eq u w = true.
Proof.
  destruct u as [[|x]|x|x|s], v as [[|y]|y|y|t], w as [[|z]|z|z|r];
    simpl; try done; try apply Qeq_bool_trans.
  rewrite !bool_decide_eq_true. congruence.
Qed.

Lemma py_eq_same u v w : py_eq v w = true → py_eq u v = py_eq u w.
Proof.
  intros Hvw. destruct (py_eq u v) eqn:Huv.
  - symmetry. by eapply py_eq_trans.
  - destruct (py_eq u w) eqn:Huw; [|done].
    rewrite py_eq_sym in Hvw. by rewrite (py_eq_trans _ _ _ Huw Hvw) in Huv.
Qed.

(** ** Baselines *)

Lemma loc_fmap_keys (f : value → Series) (ks : list value) key k0 :
  k0 ∈ ks → py_eq k0 key = true →
  (∀ k, k ∈ ks → py_eq k key = true → f k = f k0) →
  loc ((λ k, (k, f k)) <$> ks) key = Some (f k0).
Proof.
  intros Hin Heq Hf. induction ks as [|k ks IH]; [by apply elem_of_nil in Hin|].
  rewrite fmap_cons. simpl. destruct (py_eq k key) eqn:Hk.
  - f_equal. apply Hf; [by left | done].
  - apply elem_of_cons in Hin as [->|Hin]; [congruence|].
    apply IH; [done|]. intros k' Hk'. apply Hf. by right.
Qed.

Lemma loc_fmap_keys_None (f : value → Series) (ks : list value) key :
  (∀ k, k ∈ ks → py_eq k key = false) →
  loc ((λ k, (k, f k)) <$> ks) key = None.
Proof.
  intros Hne. induction ks as [|k ks IH]; [done|].
  rewrite fmap_cons. simpl. rewrite Hne by (by left).
  apply IH. intros k' Hk'. apply Hne. by right.
Qed.

Lemma group_keys_complete (keys : list value) k :
  k ∈ keys → isna k = false →
  ∃ k0, k0 ∈ group_keys keys ∧ py_eq k0 k = true.
Proof.
  intros Hin Hk. induction keys as [|a keys IH];
    [by apply elem_of_nil in Hin|].
  unfold group_keys. simpl. fold (group_keys keys).
  apply elem_of_cons in Hin as [<-|Hin].
  - rewrite Hk. exists k. split; [by left | by apply py_eq_refl].
  - destruct (IH Hin) as (k0 & Hk0 & Heq).
    destruct (isna a) eqn:Ha; [by exists k0|].
    destruct (py_eq k0 a) eqn:Hk0a.
    + exists a. split; [by left|].
      rewrite py_eq_sym in Hk0a. by eapply py_eq_trans.
    + exists k0. split; [|done]. right.
      apply list_elem_of_filter. split; [|done]. by rewrite Hk0a.
Qed.

Lemma group_members_same keys vals k0 k :
  py_eq k0 k = true → group_members keys vals k0 = group_members keys vals k.
Proof.
  intros Heq. unfold group_members. f_equal.
  apply list_filter_iff. intros [k' x]. simpl.
  rewrite py_eq_sym in Heq. by rewrite (py_eq_same k' k k0 Heq).
Qed.

Lemma group_members_rows (df : DataFrame) (f : Series → float) k :
  group_members ((λ row, cell row "meter_id") <$> rows df) (f <$> rows df) k
  = f <$> filter (λ r : Series, py_eq (cell r "meter_id") k) (rows df).
Proof.
  unfold group_members. rewrite zip_fmap_diag.
  by rewrite (filter_fmap_snd _ _ (λ k', py_eq k' k)).
Qed.

Section baselines.
Context {ext : Externals}.

Lemma loc_baselines (df : DataFrame) (row : Series) :
  row ∈ rows df →
  loc (baselines df) (cell row "meter_id")
  = if isna (cell row "meter_id") then None
    else Some (baseline (float_cells "voltage" (readings_of df row))
                        (float_cells "current" (readings_of df row))
                        (float_cells "power" (readings_of df row))).
Proof.
  intros Hrow. unfold baselines, agg_stats.
  destruct (isna (cell row "meter_id")) eqn:Hna.
  - apply loc_fmap_keys_None. intros k _.
    destruct (py_eq k (cell row "meter_id")) eqn:Hk; [|done].
    apply py_eq_notna in Hk as [_ Hk]. congruence.
  - destruct (group_keys_complete
                ((λ row, cell row "meter_id") <$> rows df)
                (cell row "meter_id")) as (k0 & Hk0 & Heq); [|done|].
    { apply list_elem_of_fmap. by exists row. }
    rewrite (loc_fmap_keys _ _ _ k0 Hk0 Heq).
    + rewrite !(group_members_same _ _ k0 _ Heq).
      by rewrite !group_members_rows.
    + intros k _ Hk. rewrite py_eq_sym in Heq.
      by rewrite !(group_members_same _ _ k k0 (py_eq_trans _ _ _ Hk Heq)).
Qed.

(** Extra X1. The baseline table holds, for the meter of any row of
    the frame, the statistics of that meter's own readings: the entry is
    computed from the voltage, current and power cells of exactly the
    rows with the same meter identifier. A row without a meter
    identifier has no entry. *)
Theorem baseline_of_meter (df : DataFrame) (row : Series) :
  row ∈ rows df →
  loc (baselines df) (cell row "meter_id")
  = if isna (cell row "meter_id") then None
    else Some (baseline (float_cells "voltage" (readings_of df row))
                        (float_cells "current" (readings_of df row))
                        (float_cells "power" (readings_of df row))).
Proof. apply loc_baselines. Qed.

End baselines.

(** ** When the classifier and the batch analysis return *)

Lemma num_Some_contains row label x :
  num row label = Some x → contains row label = true.
Proof.
  unfold num, contains. by destruct (row !! label).
Qed.




Lemma with_verdict_cell_ne v row c :
  c ∉ decision_columns → cell (with_verdict v row) c = cell row c.
Proof. intros Hc. unfold cell. by rewrite with_verdict_lookup_ne. Qed.

Section analysis.
Context {ext : Externals}.

Lemma attach_verdicts_Some processed model df :
  attach_verdicts processed model = Some df →
  columns df
  = add_column "anomaly_score" (add_column "prediction" (columns processed))
  ∧ length (rows df) = length (rows processed)
  ∧ ∀ i row, rows df !! i = Some row →
      ∃ row0 p s,
        rows processed !! i = Some row0
        ∧ row = <["anomaly_score" := VFloat s]>
                  (<["prediction" := VInt p]> row0)
        ∧ (model = None → p = 1 ∧ s = Fin 0.0).
Proof.
  intros H. destruct model as [model|]; simpl in H.
  - destruct (select _ processed) as [X|]; [|done]. simpl in H.
    destruct (sk_predict model X) as [ps|]; [|done]. simpl in H.
    destruct (set_column "prediction" _ processed) as [df1|] eqn:H1; [|done].
    simpl in H.
    destruct (sk_decision_function model X) as [ss|]; [|done]. simpl in H.
    apply set_column_fmap in H1 as (Hl1 & Hc1 & Hr1).
    apply set_column_fmap in H as (Hl2 & Hc2 & Hr2).
    split_and!.
    + by rewrite Hc2, Hc1.
    + rewrite Hr1, length_zip_with in Hl2.
      rewrite Hr2, length_zip_with, Hr1, length_zip_with. lia.
    + intros i row Hi. rewrite Hr2, Hr1 in Hi.
      apply lookup_zip_with_Some in Hi as (s & row1 & -> & Hs & Hi).
      apply lookup_zip_with_Some in Hi as (p & row0 & -> & Hp & Hi).
      by exists row0, p, s.
  - injection H as <-. simpl. split_and!; [done | by rewrite !length_fmap |].
    intros i row Hi. rewrite <- list_fmap_compose, list_lookup_fmap in Hi.
    destruct (rows processed !! i) as [row0|]; [|done].
    injection Hi as <-. by exists row0, 1, (Fin 0.0).
Qed.

Lemma attach_verdicts_cell processed model df i row c :
  attach_verdicts processed model = Some df →
  rows df !! i = Some row →
  c ∉ verdict_columns →
  ∃ row0, rows processed !! i = Some row0 ∧ row !! c = row0 !! c.
Proof.
  intros H Hi Hc.
  destruct (attach_verdicts_Some _ _ _ H) as (_ & _ & Hrows).
  destruct (Hrows i row Hi) as (row0 & p & s & H0 & -> & _).
  exists row0. split; [done|].
  assert (c ≠ "prediction" ∧ c ≠ "anomaly_score") as [? ?].
  { split; intros ->; apply Hc; by_labels. }
  by rewrite !lookup_insert_ne by done.
Qed.



(** Extra X3. One row without a meter identifier makes the whole
    analysis raise, with or without a model: [groupby] drops the missing
    key, so the baseline lookup of that row is a [KeyError]. *)
Theorem missing_meter_id_aborts (processed : DataFrame)
    (model : option Pipeline) (row : Series) :
  row ∈ rows processed →
  isna (cell row "meter_id") = true →
  analyze_patterns processed model = None.
Proof.
  intros Hrow Hna.
  destruct (analyze_patterns processed model) as [out|] eqn:H; [|done].
  exfalso.
  apply analyze_patterns_Some in H as (df & patterns & Hattach & Hpat & _).
  destruct (attach_verdicts_Some _ _ _ Hattach) as (_ & Hlen & Hdf).
  apply list_elem_of_lookup in Hrow as [i Hi].
  destruct (lookup_lt_is_Some_2 (rows df) i) as [row' Hi'].
  { rewrite Hlen. by eapply lookup_lt_Some. }
  destruct (Hdf i row' Hi') as (row0 & p & s & H0 & Heq & _).
  assert (row0 = row) as -> by congruence.
  assert (Hcell : cell row' "meter_id" = cell row "meter_id").
  { rewrite Heq. unfold cell. by rewrite !lookup_insert_ne by done. }
  destruct (Forall2_lookup_l _ _ _ i row' Hpat Hi') as (v & _ & Hv).
  unfold detect_pattern in Hv.
  rewrite (series_view_lookup _ _ "meter_id") in Hv.
  case_bool_decide; simpl in Hv; [|done].
  rewrite (loc_baselines df row'), Hcell, Hna in Hv; [done|].
  by eapply list_elem_of_lookup_2.
Qed.

End analysis.

(** ** What the outlier flag changes *)











(** ** A meter with a single reading *)

Lemma power_spike_std row stats a v :
  power_spike row stats a = Some (Some v) →
  ∃ s, num stats "power_std" = Some (Fin s).
Proof.
  unfold power_spike. intros H.
  destruct (contains row "power"); [|done].
  destruct (num row "power") as [power|]; [|done].
  destruct (num stats "power_mean") as [power_mean|]; [|done].
  destruct (num stats "power_std") as [[|s]|]; [| |done]; simpl in H.
  - by destruct (sub power power_mean).
  - by exists s.
Qed.

Lemma detect_pattern_fault row grouped_stats risk explanation :
  detect_pattern row grouped_stats = Some ("fault", risk, explanation) →
  ∃ meter_id stats a,
    row !! "meter_id" = Some meter_id
    ∧ loc grouped_stats meter_id = Some stats
    ∧ power_spike row stats a = Some (Some ("fault", risk, explanation)).
Proof.
  unfold detect_pattern. intros H.
  destruct (row !! "meter_id") as [meter_id|]; [|done]. simpl in H.
  destruct (loc grouped_stats meter_id) as [stats|] eqn:Hs; [|done].
  simpl in H.
  set (a := py_eq _ _) in H.
  destruct (theft_signature row stats a) as [[v1|]|] eqn:H1;
    [| |done]; simpl in H.
  { injection H as ->.
    apply theft_signature_verdict in H1 as (?&?&?&?&_&_&_&_&_&_&Heq).
    by inversion Heq. }
  destruct (power_spike row stats a) as [[v2|]|] eqn:H2;
    [| |done]; simpl in H.
  { injection H as ->. by exists meter_id, stats, a. }
  destruct (consumption_suppression row a) as [[v3|]|] eqn:H3;
    [| |done]; simpl in H.
  { injection H as ->.
    apply consumption_suppression_verdict in H3 as (?&?&?&Heq).
    by inversion Heq. }
  unfold anomaly_or_normal in H. destruct a; [|done].
  by destruct (to_float _).
Qed.

Lemma finite_length (l : list float) : (length (finite l) ≤ length l)%nat.
Proof.
  unfold finite. induction l as [|[|q] l IH]; cbn in *; lia.
Qed.

Lemma std_short {ext : Externals} (l : list float) :
  (length l ≤ 1)%nat → std l = NaN.
Proof.
  intros Hl. unfold std. pose proof (finite_length l).
  destruct (length (finite l) <? 2)%nat eqn:Hlt; [done|].
  apply Nat.ltb_ge in Hlt. lia.
Qed.

Lemma filter_length_Forall2 {A B} (P : A → bool) (Q : B → bool)
    (l : list A) (k : list B) :
  Forall2 (λ x y, P x = Q y) l k →
  length (filter (λ x, P x) l) = length (filter (λ y, Q y) k).
Proof.
  induction 1 as [|x y l k Hxy _ IH]; [done|].
  rewrite !filter_cons, Hxy. case_decide; simpl; by rewrite IH.
Qed.

Section lone.
Context {ext : Externals}.

Lemma attach_verdicts_Forall2 processed model df :
  attach_verdicts processed model = Some df →
  Forall2 (λ row row0, ∀ c, c ∉ verdict_columns → row !! c = row0 !! c)
    (rows df) (rows processed).
Proof.
  intros H. destruct (attach_verdicts_Some _ _ _ H) as (_ & Hlen & _).
  apply Forall2_same_length_lookup_2; [done|].
  intros i row row0 Hi H0 c Hc.
  destruct (attach_verdicts_cell _ _ _ i row c H Hi Hc) as (row0' & H0' & ->).
  congruence.
Qed.

Lemma readings_of_attach processed model df row row' :
  attach_verdicts processed model = Some df →
  cell row "meter_id" = cell row' "meter_id" →
  length (readings_of df row) = length (readings_of processed row').
Proof.
  intros H Hcell. unfold readings_of. rewrite Hcell.
  apply (filter_length_Forall2
           (λ r, py_eq (cell r "meter_id") (cell row' "meter_id"))
           (λ r, py_eq (cell r "meter_id") (cell row' "meter_id"))).
  eapply Forall2_impl; [by apply (attach_verdicts_Forall2 _ model)|].
  intros r r0 Hr. simpl. unfold cell. rewrite Hr; [done | by_labels].
Qed.

(** Extra X5. A meter with a single reading is never reported as a
    fault: its power has no standard deviation, the z-score is [NaN] and
    rule 2 cannot fire; the overload check never writes that pattern
    either. *)
Theorem lone_reading_never_fault processed model out i row :
  analyze_patterns processed model = Some out →
  rows out !! i = Some row →
  (length (readings_of processed row) ≤ 1)%nat →
  row !! "pattern" ≠ Some (VStr "fault").
Proof.
  intros H Hi Hlone Hfault.
  destruct (analyze_patterns_row _ _ _ _ _ H Hi)
    as (df & row_df & [[p r] e] & Hattach & Hdf & Hv & Hout).
  assert (Hmeter : cell row_df "meter_id" = cell row "meter_id").
  { unfold cell. destruct Hout as [-> | [pct ->]];
      by rewrite ?override_lookup_ne, with_verdict_lookup_ne by by_labels. }
  pose proof (readings_of_attach processed model df row_df row Hattach Hmeter)
    as Hlen.
  rewrite <- Hlen in Hlone. clear Hlen Hmeter.
  destruct Hout as [-> | [pct ->]];
    [|by rewrite override_pattern in Hfault].
  rewrite with_verdict_pattern in Hfault. simpl in Hfault.
  injection Hfault as ->.
  apply detect_pattern_fault in Hv as (meter_id & stats & a & Hm & Hs & Hspike).
  rewrite series_view_lookup in Hm. case_bool_decide; [|done].
  injection Hm as <-.
  rewrite (loc_baselines df row_df) in Hs
    by (by eapply list_elem_of_lookup_2).
  destruct (isna _); [done|]. injection Hs as <-.
  apply power_spike_std in Hspike as [s Hstd].
  unfold baseline, num in Hstd.
  rewrite !lookup_insert_ne, lookup_insert_eq in Hstd by done.
  simpl in Hstd. rewrite std_short in Hstd; [done|].
  unfold float_cells. by rewrite length_fmap.
Qed.

End lone.

(** ** The aggregator: threshold, groups, exceptions *)

Lemma overload_pct_range df row q :
  overload_pct df row = Fin q → (0 <= q <= 1)%Q.
Proof.
  unfold overload_pct. destruct (_ || _); [done|].
  destruct (high_load df <$> group_of df row) as [|b bs] eqn:Hbs; [done|].
  rewrite <- Hbs. intros Hq.
  destruct (mean_bool_float (high_load df <$> group_of df row))
    as (q' & Hmean & Hq'); [by rewrite Hbs|].
  assert (q' = q) as -> by congruence. rewrite Hq'.
  pose proof (length_filter Is_true (high_load df <$> group_of df row)) as Hle.
  assert (Hpos : (0 < length (high_load df <$> group_of df row))%nat)
    by (rewrite Hbs; simpl; lia).
  unfold Qle. simpl. rewrite Z2Pos.id by lia. lia.
Qed.

Lemma lt_le_trans_float a t1 t2 :
  (t1 <= t2)%Q → gt a (Fin t2) = true → gt a (Fin t1) = true.
Proof.
  unfold gt, lt. destruct a as [|q]; [done|].
  rewrite !Qlt_bool_iff. intros. by eapply Qle_lt_trans.
Qed.

(** Extra X6. With a threshold of 1 or more the overload check changes
    no row: the share of high-load meters is at most 1 and the
    comparison with the threshold is strict. *)
Theorem threshold_of_one_disables (df : DataFrame) (t : Q) (out : DataFrame) :
  (1 <= t)%Q →
  check_transformer_overload df (Fin t) = Some out →
  rows out = rows df.
Proof.
  intros Ht H. destruct (in_columns df "transformer_id") eqn:Htid.
  - apply check_transformer_overload_Some in H as (-> & _); [|done]. simpl.
    rewrite <- (list_fmap_id (rows df)) at 2. apply list_fmap_ext.
    intros i row _. unfold override_if.
    destruct (gt (overload_pct df row) (Fin t)) eqn:Hgt; [|done].
    exfalso. destruct (overload_pct df row) as [|q] eqn:Hpct; [done|].
    apply overload_pct_range in Hpct as [_ Hq].
    unfold gt, lt in Hgt. apply Qlt_bool_iff in Hgt.
    apply (Qlt_irrefl t). eapply Qlt_le_trans; [exact Hgt|].
    by eapply Qle_trans.
  - rewrite check_transformer_overload_no_column in H by done. congruence.
Qed.

(** Extra X7. Raising the threshold only takes overrides away: a row
    that is overridden at the higher threshold is overridden at the
    lower one too, with the same content. *)
Theorem threshold_monotone (df : DataFrame) (t1 t2 : Q) (out1 out2 : DataFrame) :
  (t1 <= t2)%Q →
  check_transformer_overload df (Fin t1) = Some out1 →
  check_transformer_overload df (Fin t2) = Some out2 →
  ∀ i, rows out2 !! i = rows df !! i ∨ rows out2 !! i = rows out1 !! i.
Proof.
  intros Ht H1 H2 i. destruct (in_columns df "transformer_id") eqn:Htid.
  - apply check_transformer_overload_Some in H1 as (-> & _); [|done].
    apply check_transformer_overload_Some in H2 as (-> & _); [|done].
    simpl. rewrite !list_lookup_fmap.
    destruct (rows df !! i) as [row|]; [|by left]. simpl.
    unfold override_if.
    destruct (gt (overload_pct df row) (Fin t2)) eqn:Hgt; [|by left].
    right. by rewrite (lt_le_trans_float _ t1 t2 Ht Hgt).
  - rewrite check_transformer_overload_no_column in H2 by done.
    left. congruence.
Qed.

Lemma overload_pct_group df r1 r2 :
  same_group (group_key r1) (group_key r2) = true →
  overload_pct df r1 = overload_pct df r2.
Proof.
  unfold same_group. intros Hsame.
  apply andb_true_iff in Hsame as [Hk1 Hk2].
  destruct (py_eq_notna _ _ Hk1) as [Ha1 Hb1].
  destruct (py_eq_notna _ _ Hk2) as [Ha2 Hb2].
  unfold overload_pct. rewrite Ha1, Ha2, Hb1, Hb2. simpl.
  do 3 f_equal. unfold group_of. apply list_filter_iff. intros r.
  unfold same_group.
  by rewrite (py_eq_same (group_key r).1 _ _ Hk1),
    (py_eq_same (group_key r).2 _ _ Hk2).
Qed.

(** Extra X8. The rows of one transformer at one timestamp share their
    fate: either the check leaves both of two such rows as they were, or
    it overrides both and reports the same percentage in both. *)
Theorem group_shares_decision (df : DataFrame) (threshold : float)
    (out : DataFrame) (i j : nat) (r1 r2 : Series) :
  check_transformer_overload df threshold = Some out →
  rows df !! i = Some r1 →
  rows df !! j = Some r2 →
  same_group (group_key r1) (group_key r2) = true →
  (rows out !! i = Some r1 ∧ rows out !! j = Some r2)
  ∨ ∃ pct, rows out !! i = Some (override pct r1)
           ∧ rows out !! j = Some (override pct r2).
Proof.
  intros H Hi Hj Hsame. destruct (in_columns df "transformer_id") eqn:Htid.
  - apply check_transformer_overload_Some in H as (-> & _); [|done].
    simpl. rewrite !list_lookup_fmap, Hi, Hj. simpl. unfold override_if.
    rewrite (overload_pct_group df r1 r2 Hsame).
    destruct (gt _ _); [right; by eexists | by left].
  - rewrite check_transformer_overload_no_column in H by done.
    injection H as <-. by left.
Qed.


(** ** The orchestrator *)

Lemma mkdir_parents_Some path fs fs' :
  mkdir_parents path fs = Some fs' →
  files fs' = files fs
  ∧ directories fs' = directories fs ∪ list_to_set (ancestors path).
Proof.
  unfold mkdir_parents. destruct (existsb _ _); [done|].
  intros H. by injection H as <-.
Qed.

Lemma write_file_Some path content fs fs' :
  write_file path content fs = Some fs' →
  is_dir (parent path) fs = true
  ∧ directories fs' = directories fs
  ∧ files fs' = <[path := content]> (files fs).
Proof.
  unfold write_file. destruct (is_dir (parent path) fs); [|done].
  destruct (negb _); [|done]. intros H. by injection H as <-.
Qed.

(** What writing a file below freshly made directories does to the
    file system. *)
Lemma mkdir_write path content fs fs1 fs2 :
  mkdir_parents (parent path) fs = Some fs1 →
  write_file path content fs1 = Some fs2 →
  read_file path fs2 = Some content
  ∧ (∀ p, p ≠ path → read_file p fs2 = read_file p fs)
  ∧ directories fs ⊆ directories fs2
  ∧ is_dir (parent path) fs2 = true.
Proof.
  intros H1 H2. apply mkdir_parents_Some in H1 as [Hf1 Hd1].
  apply write_file_Some in H2 as (Hdir & Hd2 & Hf2).
  unfold read_file. rewrite Hf2, Hf1. split_and!.
  - by rewrite lookup_insert_eq.
  - intros p Hp. by rewrite lookup_insert_ne.
  - rewrite Hd2, Hd1. apply union_subseteq_l.
  - unfold is_dir in *. by rewrite Hd2.
Qed.

Section orchestrator.
Context {ext : Externals}.

(** Extra X10. What [run_engine] does to the file system. Given an
    output path it writes the CSV of the table it returns to that path,
    leaves every other file as it was, removes no directory and leaves
    the parent of the path a directory; given none it changes
    nothing. *)
Theorem run_engine_persists data_path model_path output_path fs out fs' :
  run_engine data_path model_path output_path fs = Some (out, fs') →
  match output_path with
  | Some path =>
      read_file path fs' = Some (to_csv out)
      ∧ (∀ p, p ≠ path → read_file p fs' = read_file p fs)
      ∧ directories fs ⊆ directories fs'
      ∧ is_dir (parent path) fs' = true
  | None => fs' = fs
  end.
Proof.
  unfold run_engine. intros H.
  destruct (decide_rows data_path model_path fs) as [decisions|]; [|done].
  simpl in H.
  destruct (sort_values "risk_score" false decisions) as [sorted|]; [|done].
  simpl in H. destruct output_path as [path|]; [|congruence].
  destruct (mkdir_parents (parent path) fs) as [fs1|] eqn:H1; [|done].
  simpl in H.
  destruct (write_file path (to_csv sorted) fs1) as [fs2|] eqn:H2; [|done].
  simpl in H. injection H as <- <-. by eapply mkdir_write.
Qed.

(** Extra X11. [run_engine] raises when the data file is not there,
    when it cannot be read as CSV, and when a model path that exists
    does not hold a loadable model (a model path that does not exist is
    not an error, see C5). *)
Theorem run_engine_aborts data_path model_path output_path fs :
  read_file data_path fs = None
  ∨ (∃ content, read_file data_path fs = Some content
                ∧ read_csv content = None)
  ∨ (∃ path, model_path = Some path
             ∧ path_exists path fs = true
             ∧ Model.load_model path fs = None) →
  run_engine data_path model_path output_path fs = None.
Proof.
  intros Hwhy. unfold run_engine, decide_rows, load_data.
  destruct Hwhy as [-> | [(content & -> & Hcsv) | (path & -> & Hex & Hload)]].
  - done.
  - simpl. by rewrite Hcsv.
  - destruct (read_file data_path fs) as [content|]; [|done]. simpl.
    destruct (read_csv content) as [df|]; [|done]. simpl.
    destruct (sort_values "timestamp" true df) as [raw|]; [|done]. simpl.
    destruct (preprocess raw) as [processed|]; [|done]. simpl.
    unfold choose_model. by rewrite Hex, Hload.
Qed.

Lemma decide_rows_stages data_path model_path fs decisions :
  decide_rows data_path model_path fs = Some decisions →
  ∃ raw processed model analyzed,
    load_data data_path fs = Some raw
    ∧ preprocess raw = Some processed
    ∧ choose_model model_path fs = Some model
    ∧ analyze_patterns processed model = Some analyzed
    ∧ attach_alert analyzed = Some decisions.
Proof.
  unfold decide_rows. intros H.
  destruct (load_data data_path fs) as [raw|]; [|done]. simpl in H.
  destruct (preprocess raw) as [processed|] eqn:Hp; [|done]. simpl in H.
  destruct (choose_model model_path fs) as [model|]; [|done]. simpl in H.
  destruct (analyze_patterns processed model) as [analyzed|] eqn:Ha; [|done].
  simpl in H. by exists raw, processed, model, analyzed.
Qed.

Lemma attach_alert_columns decisions out :
  attach_alert decisions = Some out →
  columns out = add_column "alert" (columns decisions).
Proof.
  unfold attach_alert. intros H.
  destruct (column decisions "pattern") as [pattern|]; [|done]. simpl in H.
  by apply set_column_Some in H as [_ ->].
Qed.

Lemma analyze_patterns_shape processed model analyzed :
  analyze_patterns processed model = Some analyzed →
  length (rows analyzed) = length (rows processed)
  ∧ (∀ c, c ∈ columns analyzed
          ↔ c ∈ verdict_columns ∨ c ∈ decision_columns
            ∨ c ∈ columns processed)
  ∧ ∀ i row, rows analyzed !! i = Some row →
      ∃ row0, rows processed !! i = Some row0
              ∧ agree_outside (verdict_columns ++ decision_columns) row row0.
Proof.
  intros H. split_and!.
  - apply analyze_patterns_Some in H as (df & patterns & Hattach & Hpat & H).
    destruct (attach_verdicts_Some _ _ _ Hattach) as (_ & <- & _).
    apply Forall2_length in Hpat.
    set (df3 := {| columns := _; rows := _ |}) in H.
    assert (Hlen3 : length (rows df3) = length (rows df))
      by (simpl; rewrite length_zip_with; lia).
    destruct (in_columns df3 "transformer_id") eqn:Htid.
    + apply check_transformer_overload_Some in H as (-> & _); [|done].
      simpl. by rewrite length_fmap, length_zip_with, Hpat, Nat.min_id.
    + rewrite check_transformer_overload_no_column in H by done.
      by injection H as <-.
  - intros c.
    apply analyze_patterns_Some in H as (df & patterns & Hattach & Hpat & H).
    destruct (attach_verdicts_Some _ _ _ Hattach) as (Hc & _ & _).
    set (df3 := {| columns := _; rows := _ |}) in H.
    assert (Hc3 : c ∈ columns df3
                  ↔ c ∈ verdict_columns ∨ c ∈ decision_columns
                    ∨ c ∈ columns processed).
    { simpl. rewrite add_decision_columns_elem, Hc, !add_column_elem.
      unfold verdict_columns. rewrite !elem_of_cons, elem_of_nil. tauto. }
    destruct (in_columns df3 "transformer_id") eqn:Htid.
    + apply check_transformer_overload_Some in H as (-> & _); [|done].
      cbn [columns]. rewrite add_decision_columns_elem. tauto.
    + rewrite check_transformer_overload_no_column in H by done.
      by injection H as <-.
  - intros i row Hi.
    destruct (analyze_patterns_row _ _ _ _ _ H Hi)
      as (df & row_df & v & Hattach & Hdf & _ & Hout).
    destruct (attach_verdicts_Some _ _ _ Hattach) as (_ & _ & Hrows).
    destruct (Hrows i row_df Hdf) as (row0 & p & s & H0 & -> & _).
    exists row0. split; [done|]. intros c Hc.
    assert ((c ∉ verdict_columns) ∧ (c ∉ decision_columns)) as [Hc1 Hc2].
    { rewrite elem_of_app in Hc. tauto. }
    assert (c ≠ "prediction" ∧ c ≠ "anomaly_score") as [? ?].
    { split; intros ->; apply Hc1; by_labels. }
    destruct Hout as [-> | [pct ->]];
      rewrite ?override_lookup_ne, with_verdict_lookup_ne by done;
      by rewrite !lookup_insert_ne by done.
Qed.

(** Extra X12. The engine neither drops nor invents readings. The
    columns of the returned table are those of the preprocessed frame
    together with the six the engine writes, and its rows are, up to
    their order, the preprocessed rows, each unchanged outside those six
    columns. *)
Theorem run_engine_keeps_readings data_path model_path output_path fs
    out fs' :
  sort_values_spec →
  run_engine data_path model_path output_path fs = Some (out, fs') →
  ∃ raw processed,
    load_data data_path fs = Some raw
    ∧ preprocess raw = Some processed
    ∧ (∀ c, c ∈ columns out ↔ c ∈ engine_columns ∨ c ∈ columns processed)
    ∧ ∃ l, (rows out ≡ₚ l)
           ∧ Forall2 (agree_outside engine_columns) l (rows processed).
Proof.
  intros Hsort H.
  apply run_engine_Some in H as (decisions & Hdec & Hsorted).
  apply Hsort in Hsorted as (Hcols & Hperm & _).
  apply decide_rows_stages in Hdec
    as (raw & processed & model & analyzed & Hraw & Hproc & _ & Ha & Halert).
  destruct (analyze_patterns_shape _ _ _ Ha) as (Hlen & Hc & Hrows).
  exists raw, processed. split_and!; [done | done | |].
  - intros c. rewrite Hcols, (attach_alert_columns _ _ Halert).
    rewrite add_column_elem, Hc. unfold engine_columns, verdict_columns,
      decision_columns. rewrite !elem_of_cons, !elem_of_nil. tauto.
  - exists (rows decisions). split; [done|].
    apply attach_alert_Some in Halert. rewrite Halert.
    apply Forall2_same_length_lookup_2; [by rewrite length_fmap|].
    intros i row row0 Hi H0 c Hcin. rewrite list_lookup_fmap in Hi.
    destruct (rows analyzed !! i) as [row_a|] eqn:Hia; [|done].
    injection Hi as <-.
    destruct (Hrows i row_a Hia) as (row0' & H0' & Hagree).
    assert (row0' = row0) as -> by congruence.
    assert (c ≠ "alert") by (intros ->; apply Hcin; by_labels).
    rewrite lookup_insert_ne by done. apply Hagree.
    rewrite elem_of_app. intros [Hv|Hd]; apply Hcin; revert Hv || revert Hd;
      unfold verdict_columns, decision_columns, engine_columns;
      rewrite !elem_of_cons, !elem_of_nil; tauto.
Qed.

Lemma decided_row_alert data_path model_path fs decisions row :
  decide_rows data_path model_path fs = Some decisions →
  row ∈ rows decisions →
  ∃ q, row !! "risk_score" = Some (VFloat (Fin q))
       ∧ ((row !! "alert" = Some (VBool false) ∧ (q == 0)%Q)
          ∨ (row !! "alert" = Some (VBool true) ∧ (0.4 <= q)%Q)).
Proof.
  intros H Hrow.
  apply decide_rows_stages in H
    as (raw & processed & model & analyzed & _ & _ & _ & Ha & Halert).
  apply attach_alert_Some in Halert. rewrite Halert in Hrow.
  apply list_elem_of_fmap in Hrow as (row0 & -> & Hrow0).
  destruct (analyzed_risk_by_pattern _ _ _ _ Ha Hrow0) as (p & q & Hp & Hq & Hpq).
  exists q. rewrite lookup_insert_ne by done. split; [done|].
  rewrite lookup_insert_eq. unfold cell. rewrite Hp. simpl.
  case_bool_decide; [by left | by right].
Qed.

(** Extra X13. In the table returned by [run_engine] every alert stands
    before every row that is not an alert. *)
Theorem alerts_come_first data_path model_path output_path fs out fs'
    (i j : nat) (r1 r2 : Series) :
  sort_values_spec →
  run_engine data_path model_path output_path fs = Some (out, fs') →
  rows out !! i = Some r1 →
  rows out !! j = Some r2 →
  r1 !! "alert" = Some (VBool true) →
  r2 !! "alert" = Some (VBool false) →
  (i < j)%nat.
Proof.
  intros Hsort H H1 H2 Ha1 Ha2.
  apply run_engine_Some in H as (decisions & Hdec & Hsorted).
  apply Hsort in Hsorted as (_ & Hperm & Hsorted).
  destruct (decided_row_alert _ _ _ _ r1 Hdec) as (q1 & Hq1 & Hc1).
  { rewrite <- Hperm. by eapply list_elem_of_lookup_2. }
  destruct (decided_row_alert _ _ _ _ r2 Hdec) as (q2 & Hq2 & Hc2).
  { rewrite <- Hperm. by eapply list_elem_of_lookup_2. }
  destruct Hc1 as [[? _]|[_ Hge]]; [congruence|].
  destruct Hc2 as [[_ Hzero]|[? _]]; [|congruence].
  destruct (Nat.lt_trichotomy i j) as [Hlt|[->|Hgt]]; [done | congruence |].
  exfalso.
  apply (@Sorted_StronglySorted _ _ (row_order_trans _ _)) in Hsorted.
  pose proof (StronglySorted_lookup _ _ _ _ _ _ Hsorted Hgt H2 H1) as Hord.
  unfold row_order, sort_key, cell in Hord. rewrite Hq1, Hq2 in Hord.
  simpl in Hord. apply Is_true_true, Qle_bool_iff in Hord.
  rewrite Hzero in Hord.
  assert (0.4 <= 0)%Q as Hbad by (by eapply Qle_trans). by compute in Hbad.
Qed.

End orchestrator.

(** ** [model.py]: inference and persistence *)

Section model.
Context {ext : Externals}.

(** Extra X14. [Model.predict] and the engine label a frame the same
    way: [predict] on a list of records is the preprocessing of their
    frame followed by the engine's own attachment of [prediction] and
    [anomaly_score], exceptions included. *)
Theorem predict_agrees_with_engine (model : Pipeline) (records : list Series) :
  Model.predict model records
  = (preprocess (from_records records)
     ≫= λ processed, attach_verdicts processed (Some model)).
Proof.
  unfold Model.predict.
  destruct (preprocess (from_records records)) as [processed|]; [|done].
  simpl.
  destruct (select _ processed) as [X|]; [|done]. simpl.
  destruct (sk_predict model X) as [predictions|]; [|done]. simpl.
  destruct (sk_decision_function model X) as [scores|]; simpl; [done|].
  by destruct (set_column "prediction" _ processed).
Qed.

(** Extra X15. [save_model] writes the dump of the model to the path,
    leaves every other file as it was, removes no directory and leaves
    the parent of the path a directory. *)
Theorem save_model_writes_one_file (model : Pipeline) path fs fs' :
  Model.save_model model path fs = Some fs' →
  read_file path fs' = Some (joblib_dumps model)
  ∧ (∀ p, p ≠ path → read_file p fs' = read_file p fs)
  ∧ directories fs ⊆ directories fs'
  ∧ is_dir (parent path) fs' = true.
Proof.
  unfold Model.save_model. intros H.
  destruct (mkdir_parents (parent path) fs) as [fs1|] eqn:H1; [|done].
  simpl in H. by eapply mkdir_write.
Qed.

End model.

(** ** Training *)






Section training.
Context {ext : Externals} {trn : Training}.


Lemma train_model_Some df pipe summary :
  Train.train_model df = Some (pipe, summary) →
  ∃ X scores,
    Train.build_dataset df = Some X
    ∧ pipeline_fit X = Some pipe
    ∧ sk_decision_function pipe X = Some scores
    ∧ scores ≠ [].
Proof.
  unfold Train.train_model. intros H.
  destruct (Train.build_dataset df) as [X|]; [|done]. simpl in H.
  destruct (pipeline_fit X) as [pipe0|] eqn:Hfit; [|done]. simpl in H.
  destruct (sk_predict pipe0 X) as [predictions|]; [|done]. simpl in H.
  destruct (sk_decision_function pipe0 X) as [scores|] eqn:Hs; [|done].
  simpl in H.
  destruct scores as [|s scores]; [done|]. simpl in H.
  injection H as <- _. by exists X, (s :: scores).
Qed.

(** Extra X17. Training needs at least one complete row: when every
    preprocessed row lacks some feature, so that the dataset is empty,
    [train_model] raises (a decision function that gives one score for
    each row leaves no score to take the minimum of). *)
Theorem train_model_needs_rows df X :
  per_row_spec →
  Train.build_dataset df = Some X →
  rows X = [] →
  Train.train_model df = None.
Proof.
  intros Hspec HX Hrows.
  destruct (Train.train_model df) as [[pipe summary]|] eqn:H; [|done].
  apply train_model_Some in H as (X' & scores & HX' & _ & Hs & Hne).
  assert (X' = X) as -> by congruence.
  destruct (Hspec pipe X) as [_ Hlen]. apply Hlen in Hs.
  rewrite Hrows in Hs. by destruct scores.
Qed.

(** Extra X18. The training entry point and the engine fit together:
    after [main] has run, the engine asked for the same model path finds
    a model there (it does not fall back to the rules alone), and that
    model labels and scores every frame as the pipeline just trained
    does. The data file is still what it was. *)
Theorem trained_model_is_used data_path model_out fs out fs' :
  joblib_spec →
  data_path ≠ model_out →
  Train.main data_path model_out fs = Some (out, fs') →
  ∃ df trained model,
    Train.load_data data_path fs = Some df
    ∧ Train.train_model df = Some trained
    ∧ choose_model (Some model_out) fs' = Some (Some model)
    ∧ (∀ X, sk_predict model X = sk_predict trained.1 X)
    ∧ (∀ X, sk_decision_function model X = sk_decision_function trained.1 X)
    ∧ read_file data_path fs' = read_file data_path fs.
Proof.
  intros Hjob Hne H. unfold Train.main in H.
  destruct (Train.load_data data_path fs) as [df|] eqn:Hdf; [|done].
  simpl in H.
  destruct (Train.train_model df) as [trained|] eqn:Htr; [|done]. simpl in H.
  destruct (Model.save_model trained.1 model_out fs) as [fs1|] eqn:Hsave;
    [|done].
  simpl in H. injection H as _ <-.
  unfold Model.save_model in Hsave.
  destruct (mkdir_parents _ fs) as [fs0|] eqn:Hmk; [|done]. simpl in Hsave.
  destruct (mkdir_write _ _ _ _ _ Hmk Hsave) as (Hread & Hother & _ & _).
  destruct (Hjob trained.1) as (model & Hload & Hp & Hd).
  exists df, trained, model.
  split; [done|]. split; [done|]. split; [|by auto].
  unfold choose_model, path_exists, is_file, Model.load_model.
  unfold read_file in Hread. rewrite Hread.
  rewrite orb_true_r. unfold read_file. rewrite Hread. simpl.
  by rewrite Hload.
Qed.

End training.

(** ** The badge of an engine row *)

Section badge.
Context {ext : Externals}.

(** Extra X19. The risk badge an alert e-mail shows for a row of the
    analysed table follows from the row's pattern: a normal row reads
    LOW 0.00, an anomaly MEDIUM 0.50, a transformer overload HIGH 0.85;
    a fault is LOW 0.40 or HIGH 0.70, and a theft is MEDIUM or HIGH,
    never LOW. *)
Theorem badge_by_pattern processed model analyzed row :
  analyze_patterns processed model = Some analyzed →
  row ∈ rows analyzed →
  ∃ p badge,
    row !! "pattern" = Some (VStr p)
    ∧ EmailService.alert_badge row = Some badge
    ∧ (p = "normal" → badge = EmailService.span "risk-low" "LOW" (Fin 0))
    ∧ (p = "anomaly" →
       badge = EmailService.span "risk-medium" "MEDIUM" (Fin 0.5))
    ∧ (p = "transformer_overload" →
       badge = EmailService.span "risk-high" "HIGH" (Fin 0.85))
    ∧ (p = "fault" →
       badge ∈ [EmailService.span "risk-low" "LOW" (Fin 0.4);
                EmailService.span "risk-high" "HIGH" (Fin 0.7)])
    ∧ (p = "theft" →
       badge ∈ [EmailService.span "risk-medium" "MEDIUM" (Fin 0.5);
                EmailService.span "risk-medium" "MEDIUM" (Fin 0.6);
                EmailService.span "risk-high" "HIGH" (Fin 0.8);
                EmailService.span "risk-high" "HIGH" (Fin 0.9)]).
Proof.
  intros H Hrow. apply list_elem_of_lookup in Hrow as [i Hi].
  destruct (analyze_patterns_row _ _ _ _ _ H Hi)
    as (df & row0 & v & _ & _ & Hv & Hout).
  apply detect_pattern_verdict in Hv.
  unfold EmailService.alert_badge.
  destruct Hout as [-> | [pct ->]].
  - rewrite with_verdict_risk_score, with_verdict_pattern.
    destruct Hv as [? ? ? ?|? ?|? ? ?|? ?|?]; simpl;
      try destruct (flagged _);
      (eexists _, _; split_and!; [reflexivity | reflexivity | ..];
       intros Hp; try discriminate Hp; by_labels).
  - rewrite override_risk_score, override_pattern.
    eexists _, _; split_and!; [reflexivity | reflexivity | ..];
      intros Hp; try discriminate Hp; by_labels.
Qed.

End badge.

(** ** The user store *)

Section auth.
Context {lib : Library}.
Hypothesis json_ok : json_spec.

Lemma save_users_Some users fs fs' :
  Auth.save_users users fs = Some fs' →
  Auth.load_users fs' = Some users
  ∧ ∀ p, p ≠ Auth.USERS_FILE → read_file p fs' = read_file p fs.
Proof.
  unfold Auth.save_users. intros H.
  destruct (mkdir_parents _ fs) as [fs0|] eqn:Hmk; [|done]. simpl in H.
  destruct (mkdir_write _ _ _ _ _ Hmk H) as (Hread & Hother & _ & _).
  split; [|done].
  unfold Auth.load_users, path_exists, is_file.
  unfold read_file in Hread. rewrite Hread. rewrite orb_true_r.
  unfold read_file. rewrite Hread. simpl. apply json_ok.
Qed.

Lemma authenticate_user_of users user username password fs :
  Auth.load_users fs = Some users →
  users !! username = Some user →
  user !! "password" = Some (VStr (Auth.hash_password password)) →
  Auth.authenticate_user username password fs
  = Some (true, Some username, Some (default (VStr "viewer") (user !! "role"))).
Proof.
  intros Hl Hu Hp. unfold Auth.authenticate_user.
  rewrite Hl. simpl. rewrite Hu, Hp. simpl.
  by rewrite bool_decide_eq_true_2.
Qed.

(** Extra X20. A user that [register_user] has just created can log in
    with the password given, and is handed the role given. *)
Theorem register_then_authenticate username password name role email fs msg fs' :
  Auth.register_user username password name role email fs
  = Some (true, msg, fs') →
  Auth.authenticate_user username password fs'
  = Some (true, Some username, Some (VStr role)).
Proof.
  unfold Auth.register_user. intros H.
  destruct (Auth.load_users fs) as [users|]; [|done]. simpl in H.
  destruct (users !! username); [done|].
  destruct (_ <? _)%nat; [done|].
  destruct (Auth.save_users _ fs) as [fs1|] eqn:Hsave; [|done].
  simpl in H. injection H as _ <-.
  apply save_users_Some in Hsave as [Hl _].
  by rewrite (authenticate_user_of _ _ _ _ _ Hl (lookup_insert_eq _ _ _)).
Qed.


(** Extra X22. [delete_user] never deletes the administrator: asked to,
    it reports a failure and leaves the file system as it was. *)
Theorem admin_cannot_be_deleted fs ok msg fs' :
  Auth.delete_user "admin" fs = Some (ok, msg, fs') →
  ok = false ∧ fs' = fs.
Proof.
  unfold Auth.delete_user. intros H.
  destruct (Auth.load_users fs) as [users|]; [|done]. simpl in H.
  destruct (users !! "admin"); by injection H as <- _ <-.
Qed.

(** Extra X23. Once [delete_user] has deleted a user, no password logs
    that user in, and every other user logs in as before. *)
Theorem deleted_user_cannot_log_in username fs msg fs' :
  Auth.delete_user username fs = Some (true, msg, fs') →
  (∀ password,
     Auth.authenticate_user username password fs' = Some (false, None, None))
  ∧ (∀ other password, other ≠ username →
       Auth.authenticate_user other password fs'
       = Auth.authenticate_user other password fs).
Proof.
  unfold Auth.delete_user. intros H.
  destruct (Auth.load_users fs) as [users|] eqn:Hl0; [|done]. simpl in H.
  destruct (users !! username); [|done].
  destruct (bool_decide _); [done|].
  destruct (Auth.save_users _ fs) as [fs1|] eqn:Hsave; [|done].
  simpl in H. injection H as _ <-.
  apply save_users_Some in Hsave as [Hl _].
  unfold Auth.authenticate_user. rewrite Hl, Hl0. simpl. split.
  - intros password. by rewrite lookup_delete_eq.
  - intros other password Hne. by rewrite lookup_delete_ne.
Qed.

(** Extra X24. After [change_password] has succeeded the old password
    was the right one, the new password logs the user in with the same
    role, and the old one no longer does unless it hashes to the same
    digest. *)
Theorem change_password_takes_effect username old_password new_password fs
    msg fs' :
  Auth.change_password username old_password new_password fs
  = Some (true, msg, fs') →
  ∃ role,
    Auth.authenticate_user username old_password fs
    = Some (true, Some username, Some role)
    ∧ Auth.authenticate_user username new_password fs'
      = Some (true, Some username, Some role)
    ∧ (Auth.hash_password old_password ≠ Auth.hash_password new_password →
       Auth.authenticate_user username old_password fs'
       = Some (false, None, None)).
Proof.
  unfold Auth.change_password. intros H.
  destruct (Auth.load_users fs) as [users|] eqn:Hl0; [|done]. simpl in H.
  destruct (users !! username) as [user|] eqn:Hu; [|done].
  destruct (user !! "password") as [stored|] eqn:Hp; [|done]. simpl in H.
  destruct (py_eq stored _) eqn:Heq; [|done]. simpl in H.
  destruct (_ <? _)%nat; [done|].
  destruct (Auth.save_users _ fs) as [fs1|] eqn:Hsave; [|done].
  simpl in H. injection H as _ <-.
  apply save_users_Some in Hsave as [Hl _].
  exists (default (VStr "viewer") (user !! "role")).
  unfold Auth.authenticate_user. rewrite Hl, Hl0. simpl.
  rewrite Hu, Hp, !lookup_insert_eq. simpl. rewrite Heq.
  rewrite lookup_insert_ne by done.
  rewrite bool_decide_eq_true_2 by done. split_and!; [done|done|].
  intros Hne. by rewrite bool_decide_eq_false_2 by congruence.
Qed.

(** Extra X25. [list_all_users] lists every user of the store and no
    other, and each entry holds a name and a role and nothing else: no
    password, stored hash included, leaves through it. *)
Theorem list_all_users_hides_passwords fs users listing :
  Auth.load_users fs = Some users →
  Auth.list_all_users fs = Some listing →
  (∀ username, is_Some (listing !! username) ↔ is_Some (users !! username))
  ∧ ∀ username info key,
      listing !! username = Some info →
      is_Some (info !! key) ↔ key = "name" ∨ key = "role".
Proof.
  unfold Auth.list_all_users. intros -> H. simpl in H. injection H as <-.
  split.
  - intros username. rewrite map_lookup_imap.
    destruct (users !! username); simpl; [|by rewrite <- !not_eq_None_Some].
    split; by eexists.
  - intros username info key. rewrite map_lookup_imap.
    destruct (users !! username) as [user|]; [|done]. simpl.
    intros [= <-]. unfold Auth.listed.
    destruct (decide (key = "name")) as [->|Hn].
    { rewrite lookup_insert_eq. split; [by left | by eexists]. }
    rewrite lookup_insert_ne by done.
    destruct (decide (key = "role")) as [->|Hr].
    { rewrite lookup_insert_eq. split; [by right | by eexists]. }
    rewrite lookup_insert_ne, lookup_empty by done.
    split; [by intros [] | by intros [|]].
Qed.

(** Extra X26. [update_user_role] accepts the three roles only, and the
    role it stores is the one the user gets at the next login. *)
Theorem update_user_role_takes_effect username new_role fs msg fs' :
  Auth.update_user_role username new_role fs = Some (true, msg, fs') →
  new_role ∈ ["admin"; "operator"; "viewer"]
  ∧ ∀ password role,
      Auth.authenticate_user username password fs
      = Some (true, Some username, Some role) →
      Auth.authenticate_user username password fs'
      = Some (true, Some username, Some (VStr new_role)).
Proof.
  unfold Auth.update_user_role. intros H.
  destruct (Auth.load_users fs) as [users|] eqn:Hl0; [|done]. simpl in H.
  destruct (users !! username) as [user|] eqn:Hu; [|done].
  case_bool_decide as Hrole; [|done]. simpl in H.
  destruct (Auth.save_users _ fs) as [fs1|] eqn:Hsave; [|done].
  simpl in H. injection H as _ <-.
  apply save_users_Some in Hsave as [Hl _].
  split; [done|]. intros password role.
  unfold Auth.authenticate_user. rewrite Hl, Hl0. simpl.
  rewrite Hu, lookup_insert_eq. simpl.
  rewrite (lookup_insert_ne user "role" "password") by done.
  destruct (user !! "password") as [stored|]; [|done]. simpl.
  destruct (py_eq stored _); [|done]. by rewrite lookup_insert_eq.
Qed.

(** Extra X27. [toggle_user_alerts] called twice leaves the user with
    alerts on exactly if they were on to begin with (a missing flag
    counts as off), and the two messages say the opposite of each
    other. *)
Theorem toggle_user_alerts_twice username fs users user msg1 fs1 ok msg2 fs2 :
  Auth.load_users fs = Some users →
  users !! username = Some user →
  Auth.toggle_user_alerts username fs = Some (true, msg1, fs1) →
  Auth.toggle_user_alerts username fs1 = Some (ok, msg2, fs2) →
  ok = true
  ∧ msg1 ≠ msg2
  ∧ Auth.get_user_info username fs2
    = Some (Some (<["alerts_enabled" :=
                      VBool (truthy (default (VBool false)
                                       (user !! "alerts_enabled")))]> user)).
Proof.
  unfold Auth.toggle_user_alerts. intros -> Hu H1 H2. simpl in H1.
  rewrite Hu in H1.
  destruct (Auth.save_users _ fs) as [fs1'|] eqn:Hsave1; [|done].
  simpl in H1. injection H1 as <- <-.
  apply save_users_Some in Hsave1 as [Hl1 _].
  rewrite Hl1 in H2. simpl in H2. rewrite lookup_insert_eq in H2.
  rewrite lookup_insert_eq in H2. simpl in H2.
  destruct (Auth.save_users _ fs1') as [fs2'|] eqn:Hsave2; [|done].
  simpl in H2. injection H2 as <- <- <-.
  apply save_users_Some in Hsave2 as [Hl2 _].
  split; [done|]. split.
  - destruct (truthy _); simpl; intros Heq; by inversion Heq.
  - unfold Auth.get_user_info. rewrite Hl2. simpl.
    rewrite lookup_insert_eq. rewrite insert_insert_eq.
    by rewrite negb_involutive.
Qed.

(** Extra X28. On first import, when there is no user file, the module
    creates the three default accounts: the administrator can then log
    in with the built-in password. A store that holds users already is
    never overwritten by [create_default_users]. *)
Theorem default_users_once fs :
  (∀ fs', path_exists Auth.USERS_FILE fs = false →
          Auth.init fs = Some fs' →
          Auth.authenticate_user "admin" "admin123" fs'
          = Some (true, Some "admin", Some (VStr "admin")))
  ∧ (∀ users fs', Auth.load_users fs = Some users → users ≠ ∅ →
                  Auth.create_default_users fs = Some fs' → fs' = fs).
Proof.
  split.
  - intros fs' Hex. unfold Auth.init, Auth.create_default_users.
    unfold Auth.load_users at 1. rewrite Hex. simpl.
    rewrite bool_decide_eq_true_2 by done. intros Hsave.
    apply save_users_Some in Hsave as [Hl _].
    by rewrite (authenticate_user_of _ _ _ _ _ Hl (lookup_insert_eq _ _ _)).
  - intros users fs' Hl Hne. unfold Auth.create_default_users.
    rewrite Hl. simpl. rewrite bool_decide_eq_false_2 by done. congruence.
Qed.

(** Extra X29. The e-mail configuration saved by [save_email_config] is
    the one [load_email_config] returns afterwards, whatever the file
    held before; without a configuration file the defaults say that
    notifications are disabled. *)
Theorem email_config_round_trip config fs :
  (∀ fs', EmailConfig.save_email_config config fs = Some fs' →
          EmailConfig.load_email_config fs' = Some config)
  ∧ (path_exists EmailConfig.CONFIG_FILE fs = false →
     ∃ defaults, EmailConfig.load_email_config fs = Some defaults
                 ∧ defaults !! "enabled" = Some (VBool false)).
Proof.
  split.
  - unfold EmailConfig.save_email_config. intros fs' H.
    destruct (if path_exists _ fs then _ else _) as [full|]; [|done].
    simpl in H. apply write_file_Some in H as (_ & _ & Hf).
    unfold EmailConfig.load_email_config, path_exists, is_file, read_file.
    rewrite Hf, lookup_insert_eq, orb_true_r. simpl.
    rewrite json_ok. simpl. by rewrite lookup_insert_eq.
  - intros Hex. unfold EmailConfig.load_email_config. rewrite Hex.
    by eexists.
Qed.

End auth.

(** ** The properties above on the concrete inputs *)


Lemma baseline_of_meter_witness :
  loc (baselines (ext := example_externals) example_readings)
    (cell (reading "M1" 0 230 10 5 5) "meter_id")
  = if isna (cell (reading "M1" 0 230 10 5 5) "meter_id") then None
    else Some (baseline (ext := example_externals)
                 (float_cells "voltage"
                    (readings_of example_readings (reading "M1" 0 230 10 5 5)))
                 (float_cells "current"
                    (readings_of example_readings (reading "M1" 0 230 10 5 5)))
                 (float_cells "power"
                    (readings_of example_readings (reading "M1" 0 230 10 5 5)))).
Proof.
  apply (baseline_of_meter (ext := example_externals) example_readings
           (reading "M1" 0 230 10 5 5)).
  apply (list_elem_of_lookup_2 _ 0%nat). reflexivity.
Defined.


Lemma missing_meter_id_aborts_witness :
  analyze_patterns (ext := example_externals) unmetered_readings None = None.
Proof.
  apply (missing_meter_id_aborts (ext := example_externals)
           unmetered_readings None
           (delete "meter_id" (reading "M2" 0 231 11 6 6))).
  - apply (list_elem_of_lookup_2 _ 1%nat). reflexivity.
  - reflexivity.
Defined.


Lemma lone_reading_never_fault_witness :
  lone_row !! "pattern" ≠ Some (VStr "fault").
Proof.
  apply (lone_reading_never_fault (ext := example_externals)
           lone_readings None lone_analyzed 1%nat lone_row).
  - vm_compute. reflexivity.
  - reflexivity.
  - vm_compute. lia.
Defined.

Lemma threshold_of_one_disables_witness :
  rows overload_example_unchecked = rows overload_example.
Proof.
  apply (threshold_of_one_disables overload_example 1
           overload_example_unchecked).
  - unfold Qle. simpl. lia.
  - vm_compute. reflexivity.
Defined.

Lemma threshold_monotone_witness :
  rows overload_example_unchecked !! 4%nat = rows overload_example !! 4%nat
  ∨ rows overload_example_unchecked !! 4%nat
    = rows overload_example_result !! 4%nat.
Proof.
  refine (threshold_monotone overload_example 0.7 1 overload_example_result
            overload_example_unchecked _ _ _ 4%nat).
  - unfold Qle. simpl. lia.
  - vm_compute. reflexivity.
  - vm_compute. reflexivity.
Defined.

Lemma group_shares_decision_witness :
  (rows overload_example_result !! 4%nat = Some (metered "A" 1 2)
   ∧ rows overload_example_result !! 5%nat = Some (metered "B" 1 2))
  ∨ ∃ pct,
      rows overload_example_result !! 4%nat
      = Some (override pct (metered "A" 1 2))
      ∧ rows overload_example_result !! 5%nat
        = Some (override pct (metered "B" 1 2)).
Proof.
  apply (group_shares_decision overload_example default_threshold
           overload_example_result 4 5 (metered "A" 1 2) (metered "B" 1 2)).
  - vm_compute. reflexivity.
  - reflexivity.
  - reflexivity.
  - vm_compute. reflexivity.
Defined.

Lemma run_engine_persists_witness :
  read_file example_output_path example_written_fs
  = Some (to_csv (Externals := example_externals) example_decisions)
  ∧ (∀ p, p ≠ example_output_path →
          read_file p example_written_fs = read_file p example_fs)
  ∧ directories example_fs ⊆ directories example_written_fs
  ∧ is_dir (parent example_output_path) example_written_fs = true.
Proof.
  apply (run_engine_persists (ext := example_externals) example_data_path None
           (Some example_output_path) example_fs example_decisions
           example_written_fs).
  vm_compute. reflexivity.
Defined.

Lemma run_engine_aborts_witness :
  run_engine (ext := example_externals) example_output_path None None
    example_fs = None.
Proof.
  apply (run_engine_aborts (ext := example_externals)).
  left. reflexivity.
Defined.

Lemma run_engine_keeps_readings_witness :
  ∃ raw processed,
    load_data (ext := example_externals) example_data_path example_fs
    = Some raw
    ∧ @preprocess example_externals raw = Some processed
    ∧ (∀ c, c ∈ columns example_decisions
            ↔ c ∈ engine_columns ∨ c ∈ columns processed)
    ∧ ∃ l, (rows example_decisions ≡ₚ l)
           ∧ Forall2 (agree_outside engine_columns) l (rows processed).
Proof.
  apply (run_engine_keeps_readings (ext := example_externals)
           example_data_path None None example_fs example_decisions example_fs
           merge_sort_values_spec).
  vm_compute. reflexivity.
Defined.

Lemma alerts_come_first_witness : (0 < 3)%nat.
Proof.
  apply (alerts_come_first (ext := example_externals) example_data_path None
           None example_fs example_decisions example_fs 0 3
           example_decision_row
           (default ∅ (rows example_decisions !! 3%nat))
           merge_sort_values_spec).
  - vm_compute. reflexivity.
  - reflexivity.
  - reflexivity.
  - reflexivity.
  - reflexivity.
Defined.

Lemma save_model_writes_one_file_witness :
  read_file example_model_path example_saved_fs
  = Some (joblib_dumps (Externals := example_externals) true)
  ∧ (∀ p, p ≠ example_model_path →
          read_file p example_saved_fs = read_file p example_fs)
  ∧ directories example_fs ⊆ directories example_saved_fs
  ∧ is_dir (parent example_model_path) example_saved_fs = true.
Proof.
  apply (save_model_writes_one_file (ext := example_externals) true
           example_model_path example_fs example_saved_fs).
  vm_compute. reflexivity.
Defined.


Lemma feature_per_row_spec : per_row_spec (ext := feature_externals).
Proof.
  intros pipe X. split; intros l [= <-]; by rewrite length_fmap.
Qed.

Lemma train_model_needs_rows_witness :
  Train.train_model (ext := feature_externals) (trn := example_training)
    first_readings = None.
Proof.
  apply (train_model_needs_rows (ext := feature_externals)
           (trn := example_training) first_readings first_dataset
           feature_per_row_spec).
  - vm_compute. reflexivity.
  - reflexivity.
Defined.

Lemma feature_joblib_spec : joblib_spec (ext := feature_externals).
Proof. intros [|]; [exists true | exists false]; by split_and!. Qed.

Lemma trained_model_is_used_witness :
  ∃ df trained model,
    Train.load_data (ext := feature_externals) example_data_path example_fs
    = Some df
    ∧ Train.train_model (ext := feature_externals)
        (trn := example_training) df = Some trained
    ∧ choose_model (ext := feature_externals) (Some example_model_path)
        example_trained_fs
      = Some (Some model)
    ∧ (∀ X, @sk_predict feature_externals model X
            = @sk_predict feature_externals trained.1 X)
    ∧ (∀ X, @sk_decision_function feature_externals model X
            = @sk_decision_function feature_externals trained.1 X)
    ∧ read_file example_data_path example_trained_fs
      = read_file example_data_path example_fs.
Proof.
  apply (trained_model_is_used (ext := feature_externals)
           (trn := example_training) example_data_path example_model_path
           example_fs example_training_output example_trained_fs
           feature_joblib_spec).
  - discriminate.
  - vm_compute. reflexivity.
Defined.

Lemma badge_by_pattern_witness :
  ∃ p badge,
    example_analyzed_row !! "pattern" = Some (VStr p)
    ∧ EmailService.alert_badge example_analyzed_row = Some badge
    ∧ (p = "normal" → badge = EmailService.span "risk-low" "LOW" (Fin 0))
    ∧ (p = "anomaly" →
       badge = EmailService.span "risk-medium" "MEDIUM" (Fin 0.5))
    ∧ (p = "transformer_overload" →
       badge = EmailService.span "risk-high" "HIGH" (Fin 0.85))
    ∧ (p = "fault" →
       badge ∈ [EmailService.span "risk-low" "LOW" (Fin 0.4);
                EmailService.span "risk-high" "HIGH" (Fin 0.7)])
    ∧ (p = "theft" →
       badge ∈ [EmailService.span "risk-medium" "MEDIUM" (Fin 0.5);
                EmailService.span "risk-medium" "MEDIUM" (Fin 0.6);
                EmailService.span "risk-high" "HIGH" (Fin 0.8);
                EmailService.span "risk-high" "HIGH" (Fin 0.9)]).
Proof.
  apply (badge_by_pattern (ext := example_externals) example_readings None
           example_analyzed example_analyzed_row).
  - vm_compute. reflexivity.
  - apply (list_elem_of_lookup_2 _ 3%nat). reflexivity.
Defined.

(** *** The user store *)

Lemma of_bits_bits p : ExampleLibrary.of_bits (ExampleLibrary.bits p) = p.
Proof. induction p as [p IH|p IH|]; simpl; by rewrite ?IH. Qed.

Lemma unpack_pack_rest l :
  ExampleLibrary.unpack (ExampleLibrary.pack_rest l) = l.
Proof. induction l as [|b l IH]; simpl; by rewrite ?IH. Qed.

Lemma unpack_pack : ∀ l, ExampleLibrary.unpack (ExampleLibrary.pack l) = l.
Proof.
  fix IH 1.
  intros [|b0 [|b1 [|b2 [|b3 [|b4 [|b5 [|b6 rest]]]]]]];
    try apply (unpack_pack_rest _).
  simpl. by rewrite IH.
Qed.

Lemma example_json_spec : json_spec (lib := ExampleLibrary.example_library).
Proof.
  intros obj. simpl. by rewrite unpack_pack, of_bits_bits, decode_encode.
Qed.

#[local] Existing Instance ExampleLibrary.example_library.

Lemma register_then_authenticate_witness :
  Auth.authenticate_user (lib := ExampleLibrary.example_library)
    "alice" "secret1"
    (after (Auth.register_user "alice" "secret1" "Alice" "operator"
              "alice@example.org" example_fs))
  = Some (true, Some "alice", Some (VStr "operator")).
Proof.
  apply (register_then_authenticate (lib := ExampleLibrary.example_library)
           example_json_spec "alice" "secret1" "Alice" "operator"
           "alice@example.org" example_fs "User 'alice' created successfully").
  vm_compute. reflexivity.
Defined.


Lemma admin_cannot_be_deleted_witness :
  false = false ∧ default_users_fs = default_users_fs.
Proof.
  apply (admin_cannot_be_deleted (lib := ExampleLibrary.example_library)
           default_users_fs false "Cannot delete admin user" default_users_fs).
  vm_compute. reflexivity.
Defined.

Lemma deleted_user_cannot_log_in_witness :
  (∀ password,
     Auth.authenticate_user (lib := ExampleLibrary.example_library)
       "viewer" password (after (Auth.delete_user "viewer" default_users_fs))
     = Some (false, None, None))
  ∧ (∀ other password, other ≠ "viewer" →
       Auth.authenticate_user (lib := ExampleLibrary.example_library)
         other password (after (Auth.delete_user "viewer" default_users_fs))
       = Auth.authenticate_user other password default_users_fs).
Proof.
  apply (deleted_user_cannot_log_in (lib := ExampleLibrary.example_library)
           example_json_spec "viewer" default_users_fs
           "User 'viewer' deleted successfully").
  vm_compute. reflexivity.
Defined.

Lemma change_password_takes_effect_witness :
  ∃ role,
    Auth.authenticate_user (lib := ExampleLibrary.example_library)
      "operator" "operator123" default_users_fs
    = Some (true, Some "operator", Some role)
    ∧ Auth.authenticate_user "operator" "substation7"
        (after (Auth.change_password "operator" "operator123" "substation7"
                  default_users_fs))
      = Some (true, Some "operator", Some role)
    ∧ (Auth.hash_password "operator123" ≠ Auth.hash_password "substation7" →
       Auth.authenticate_user "operator" "operator123"
         (after (Auth.change_password "operator" "operator123" "substation7"
                   default_users_fs))
       = Some (false, None, None)).
Proof.
  apply (change_password_takes_effect (lib := ExampleLibrary.example_library)
           example_json_spec "operator" "operator123" "substation7"
           default_users_fs "Password changed successfully").
  vm_compute. reflexivity.
Defined.

Lemma list_all_users_hides_passwords_witness :
  (∀ username,
     is_Some (default ∅ (Auth.list_all_users
                           (lib := ExampleLibrary.example_library)
                           default_users_fs) !! username)
     ↔ is_Some (Auth.default_users !! username))
  ∧ ∀ username info key,
      default ∅ (Auth.list_all_users default_users_fs) !! username
      = Some info →
      is_Some (info !! key) ↔ key = "name" ∨ key = "role".
Proof.
  apply (list_all_users_hides_passwords
           (lib := ExampleLibrary.example_library) default_users_fs
           Auth.default_users).
  - vm_compute. reflexivity.
  - vm_compute. reflexivity.
Defined.

Lemma update_user_role_takes_effect_witness :
  "operator" ∈ ["admin"; "operator"; "viewer"]
  ∧ ∀ password role,
      Auth.authenticate_user (lib := ExampleLibrary.example_library)
        "viewer" password default_users_fs
      = Some (true, Some "viewer", Some role) →
      Auth.authenticate_user "viewer" password
        (after (Auth.update_user_role "viewer" "operator" default_users_fs))
      = Some (true, Some "viewer", Some (VStr "operator")).
Proof.
  apply (update_user_role_takes_effect
           (lib := ExampleLibrary.example_library) example_json_spec
           "viewer" "operator" default_users_fs
           "User 'viewer' role updated to 'operator'").
  vm_compute. reflexivity.
Defined.

Lemma toggle_user_alerts_twice_witness :
  true = true
  ∧ "Alerts enabled for user 'viewer'" ≠ "Alerts disabled for user 'viewer'"
  ∧ Auth.get_user_info (lib := ExampleLibrary.example_library) "viewer"
      (after (Auth.toggle_user_alerts "viewer"
                (after (Auth.toggle_user_alerts "viewer" default_users_fs))))
    = Some (Some (<["alerts_enabled" :=
                      VBool (truthy
                               (default (VBool false)
                                  (Auth.user_record "viewer123" "viewer"
                                     "Data Viewer" "viewer@smartgrid.local"
                                     false !! "alerts_enabled")))]>
                    (Auth.user_record "viewer123" "viewer" "Data Viewer"
                       "viewer@smartgrid.local" false))).
Proof.
  apply (toggle_user_alerts_twice (lib := ExampleLibrary.example_library)
           example_json_spec "viewer" default_users_fs Auth.default_users
           (Auth.user_record "viewer123" "viewer" "Data Viewer"
              "viewer@smartgrid.local" false)
           "Alerts enabled for user 'viewer'"
           (after (Auth.toggle_user_alerts "viewer" default_users_fs))
           true "Alerts disabled for user 'viewer'").
  - vm_compute. reflexivity.
  - reflexivity.
  - vm_compute. reflexivity.
  - vm_compute. reflexivity.
Defined.

Lemma default_users_once_witness :
  Auth.authenticate_user (lib := ExampleLibrary.example_library)
    "admin" "admin123" default_users_fs
  = Some (true, Some "admin", Some (VStr "admin"))
  ∧ ∀ fs', Auth.create_default_users default_users_fs = Some fs' →
           fs' = default_users_fs.
Proof.
  split.
  - destruct (default_users_once (lib := ExampleLibrary.example_library)
                example_json_spec example_fs) as [Hfirst _].
    apply Hfirst; vm_compute; reflexivity.
  - destruct (default_users_once (lib := ExampleLibrary.example_library)
                example_json_spec default_users_fs) as [_ Hkeep].
    intros fs'. apply (Hkeep Auth.default_users).
    + vm_compute. reflexivity.
    + intros Hempty.
      by apply (f_equal (λ users : Users, users !! "admin")) in Hempty.
Defined.

Lemma email_config_round_trip_witness :
  EmailConfig.load_email_config (lib := ExampleLibrary.example_library)
    (default example_fs
       (EmailConfig.save_email_config example_config example_fs))
  = Some example_config
  ∧ ∃ defaults,
      EmailConfig.load_email_config (lib := ExampleLibrary.example_library)
        example_fs = Some defaults
      ∧ defaults !! "enabled" = Some (VBool false).
Proof.
  destruct (email_config_round_trip (lib := ExampleLibrary.example_library)
              example_json_spec example_config example_fs) as [Hsave Hnone].
  split.
  - apply Hsave. vm_compute. reflexivity.
  - apply Hnone. reflexivity.
Defined.
